(** * A notification system: Observer, Factory and Singleton (main.cpp)

    Shallow embedding of [main.cpp].  The program is stateful: it writes to
    [std::cout], it keeps one heap-allocated [NotificationManager] behind a
    static pointer, and the manager keeps raw [Subscriber*] pointers to
    objects it does not own.  All C++ functions are therefore embedded in one
    state-and-error monad over an explicit [World]; the error outcome stands
    for undefined behaviour (a call through a pointer to no live object). *)

From Stdlib Require Import Ascii String.
From stdpp Require Import gmap strings list fin_maps.

(** ** Data *)

(** Pointers are addresses; [nullptr] is address zero. *)
Definition nullptr : N := 0%N.

(** [class Subscriber] with its single variant [class User]. *)
Inductive Subscriber : Type :=
  | User (name : string).

(** [class Notification] with its three variants; none has a field. *)
Inductive Notification : Type :=
  | EmailNotification
  | SMSNotification
  | PushNotification.

(** The one field of [class NotificationManager]:
    [std::map<std::string, std::vector<Subscriber*>> subscribers]. *)
Record NotificationManager : Type := mkManager {
  subscribers : gmap string (list N)
}.

(** The virtual calls a run performs, in order.  This is a ghost log: the
    program cannot read it. *)
Inductive Call : Type :=
  | CallSend (receiver : Notification) (message : string)
  | CallUpdate (receiver : N) (message : string).

(** The state of the process.  Objects live in typed stores, one per
    class, keyed by address; an address with no entry points to no live
    object of that class. *)
Record World : Type := mkWorld {
  cout : string;                          (* characters written to std::cout *)
  calls : list Call;                      (* ghost log of virtual calls *)
  objects : gmap N Subscriber;            (* live Subscriber objects *)
  managers : gmap N NotificationManager;  (* live NotificationManager objects *)
  instance : N                            (* NotificationManager::instance *)
}.

(** [NotificationManager* NotificationManager::instance = nullptr;] and
    nothing else exists when the process starts. *)
Definition initial_world : World :=
  {| cout := EmptyString; calls := []; objects := ∅; managers := ∅;
     instance := nullptr |}.

Global Instance Subscriber_eq_dec : EqDecision Subscriber.
Proof. solve_decision. Defined.
Global Instance Notification_eq_dec : EqDecision Notification.
Proof. solve_decision. Defined.
Global Instance Call_eq_dec : EqDecision Call.
Proof. solve_decision. Defined.

(** ** The effect monad *)

Definition M (A : Type) : Type := World → option (A * World).

Global Instance M_ret : MRet M := λ A a w, Some (a, w).
Global Instance M_bind : MBind M := λ A B f m w,
  match m w with
  | Some (a, w') => f a w'
  | None => None
  end.

(** Undefined behaviour. *)
Definition undefined {A : Type} : M A := λ _, None.

Definition get_world : M World := λ w, Some (w, w).
Definition put_world (w : World) : M unit := λ _, Some (tt, w).

(** [std::cout << s] *)
Definition print (s : string) : M unit :=
  w ← get_world;
  put_world {| cout := cout w +:+ s; calls := calls w; objects := objects w;
               managers := managers w; instance := instance w |}.

(** [std::endl] writes a newline (the flush is not observable here). *)
Definition endl : string := String "010"%char EmptyString.

Definition log (c : Call) : M unit :=
  w ← get_world;
  put_world {| cout := cout w; calls := calls w ++ [c]; objects := objects w;
               managers := managers w; instance := instance w |}.

(** Dereferencing a [Subscriber*]. *)
Definition deref_subscriber (p : N) : M Subscriber :=
  w ← get_world;
  match objects w !! p with
  | Some s => mret s
  | None => undefined
  end.

(** Reading and writing the object behind a [NotificationManager*]. *)
Definition load_manager (this : N) : M NotificationManager :=
  w ← get_world;
  match managers w !! this with
  | Some m => mret m
  | None => undefined
  end.

Definition store_manager (this : N) (m : NotificationManager) : M unit :=
  w ← get_world;
  match managers w !! this with
  | Some _ =>
      put_world {| cout := cout w; calls := calls w; objects := objects w;
                   managers := <[this := m]> (managers w);
                   instance := instance w |}
  | None => undefined
  end.

(** A range-based [for] over a vector whose body does not touch the vector. *)
Fixpoint for_each {A : Type} (l : list A) (body : A → M unit) : M unit :=
  match l with
  | [] => mret tt
  | x :: l' => body x;; for_each l' body
  end.

(** ** Observer *)

(** [User::update] *)
Definition update (self : Subscriber) (message : string) : M unit :=
  match self with
  | User name =>
      print name;; print " received notification: ";; print message;;
      print endl
  end.

(** [subscriber->update(message)]: a virtual call through a raw pointer. *)
Definition invoke_update (subscriber : N) (message : string) : M unit :=
  self ← deref_subscriber subscriber;
  log (CallUpdate subscriber message);;
  update self message.

(** ** Factory *)

(** [EmailNotification::send], [SMSNotification::send],
    [PushNotification::send] *)
Definition send (self : Notification) (message : string) : M unit :=
  match self with
  | EmailNotification => print "Sending Email: ";; print message;; print endl
  | SMSNotification => print "Sending SMS: ";; print message;; print endl
  | PushNotification =>
      print "Sending Push Notification: ";; print message;; print endl
  end.

(** [notification->send(message)] on a non-null [unique_ptr]. *)
Definition invoke_send (notification : Notification) (message : string)
  : M unit :=
  log (CallSend notification message);;
  send notification message.

(** [NotificationFactory::createNotification].  The returned
    [std::unique_ptr<Notification>] owns its object exclusively, so it is
    embedded by value; the null pointer is [None]. *)
Definition createNotification (type : string) : M (option Notification) :=
  if decide (type = "email") then mret (Some EmailNotification)
  else if decide (type = "sms") then mret (Some SMSNotification)
  else if decide (type = "push") then mret (Some PushNotification)
  else mret None.

(** ** Singleton *)

(** [new NotificationManager()]: a fresh non-null address holding a manager
    with an empty map. *)
Definition new_NotificationManager : M N :=
  w ← get_world;
  let p := fresh ({[nullptr]} ∪ dom (managers w)) in
  put_world {| cout := cout w; calls := calls w; objects := objects w;
               managers := <[p := mkManager ∅]> (managers w);
               instance := instance w |};;
  mret p.

Definition get_instance : M N := w ← get_world; mret (instance w).

Definition set_instance (p : N) : M unit :=
  w ← get_world;
  put_world {| cout := cout w; calls := calls w; objects := objects w;
               managers := managers w; instance := p |}.

(** [NotificationManager::getInstance] *)
Definition getInstance : M N :=
  i ← get_instance;
  (if decide (i = nullptr)
   then p ← new_NotificationManager; set_instance p
   else mret tt);;
  get_instance.

(** [std::map::operator[]]: the entry is created, holding an empty vector,
    when the key is absent. *)
Definition map_subscript (k : string) (m : gmap string (list N))
  : gmap string (list N) :=
  match m !! k with
  | Some _ => m
  | None => <[k := []]> m
  end.

(** [std::vector::push_back] *)
Definition push_back (x : N) (v : list N) : list N := v ++ [x].

(** [NotificationManager::subscribe] *)
Definition subscribe (this : N) (notificationType : string) (subscriber : N)
  : M unit :=
  m ← load_manager this;
  let entries := map_subscript notificationType (subscribers m) in
  store_manager this
    (mkManager (alter (push_back subscriber) notificationType entries)).

(** [NotificationManager::notifySubscribers] *)
Definition notifySubscribers (this : N) (notificationType message : string)
  : M unit :=
  m ← load_manager this;
  if decide (is_Some (subscribers m !! notificationType)) then
    let entries := map_subscript notificationType (subscribers m) in
    store_manager this (mkManager entries);;
    for_each (entries !!! notificationType)
             (λ subscriber, invoke_update subscriber message)
  else mret tt.

(** [NotificationManager::sendNotification].  The body reaches [*this]
    only through [notifySubscribers], so on the unrecognised branch this
    embedding returns whatever [this] is, whereas C++ leaves a member call
    through a pointer to no live manager undefined.  Statements about
    whether a send is defined are therefore made for a live manager. *)
Definition sendNotification (this : N) (notificationType message : string)
  : M unit :=
  notification ← createNotification notificationType;
  match notification with
  | Some n =>
      invoke_send n message;;
      notifySubscribers this notificationType message
  | None =>
      print "Invalid notification type: ";; print notificationType;;
      print endl
  end.

(** ** The driver *)

(** A [User] with automatic storage: constructed at a fresh non-null
    address, destroyed when its scope ends. *)
Definition new_User (name : string) : M N :=
  w ← get_world;
  let p := fresh ({[nullptr]} ∪ dom (objects w)) in
  put_world {| cout := cout w; calls := calls w;
               objects := <[p := User name]> (objects w);
               managers := managers w; instance := instance w |};;
  mret p.

Definition delete_User (p : N) : M unit :=
  w ← get_world;
  put_world {| cout := cout w; calls := calls w;
               objects := delete p (objects w);
               managers := managers w; instance := instance w |}.

(** Lines 113 to 123 of [main]: the manager, the two users and the four
    subscriptions. *)
Definition main_setup : M (N * N * N) :=
  manager ← getInstance;
  alice ← new_User "Alice";
  bob ← new_User "Bob";
  subscribe manager "email" alice;;
  subscribe manager "sms" bob;;
  subscribe manager "push" alice;;
  subscribe manager "push" bob;;
  mret (manager, alice, bob).

(** [main] *)
Definition main : M Z :=
  '(manager, alice, bob) ← main_setup;
  sendNotification manager "email" "Your order has been placed.";;
  sendNotification manager "sms" "Your order is on the way.";;
  sendNotification manager "push" "Your order has been delivered.";;
  delete_User bob;;
  delete_User alice;;
  mret 0%Z.

(** * Specification vocabulary *)

(** [emit out cs w] is [w] after [out] was written to [std::cout] and the
    virtual calls [cs] were made; nothing else differs. *)
Definition emit (out : string) (cs : list Call) (w : World) : World :=
  {| cout := cout w +:+ out; calls := calls w ++ cs; objects := objects w;
     managers := managers w; instance := instance w |}.

(** The line [User::update] writes for a user called [name]. *)
Definition received_line (name message : string) : string :=
  name +:+ " received notification: " +:+ message +:+ endl.

(** The tag each [send] override writes before the message. *)
Definition send_tag (n : Notification) : string :=
  match n with
  | EmailNotification => "Sending Email: "
  | SMSNotification => "Sending SMS: "
  | PushNotification => "Sending Push Notification: "
  end.

(** A [Subscriber*] is live when it points to a [Subscriber] object. *)
Definition live (objs : gmap N Subscriber) (p : N) : Prop :=
  is_Some (objs !! p).

Global Instance live_dec (objs : gmap N Subscriber) (p : N) :
  Decision (live objs p).
Proof. unfold live. apply _. Defined.

(** The name stored in the object behind a live pointer. *)
Definition name_at (objs : gmap N Subscriber) (p : N) : string :=
  match objs !! p with
  | Some (User name) => name
  | None => EmptyString
  end.

(** One [received_line] per pointer of [subs], in the order of [subs]. *)
Fixpoint received_lines (objs : gmap N Subscriber) (subs : list N)
  (message : string) : string :=
  match subs with
  | [] => EmptyString
  | p :: subs' =>
      received_line (name_at objs p) message
      +:+ received_lines objs subs' message
  end.

(** One [update(message)] call per pointer of [subs], in the order of
    [subs]. *)
Definition update_calls (subs : list N) (message : string) : list Call :=
  (λ p, CallUpdate p message) <$> subs.

(** [this->subscribers = subs], everything else as in [w]. *)
Definition with_subscribers (this : N) (subs : gmap string (list N))
  (w : World) : World :=
  {| cout := cout w; calls := calls w; objects := objects w;
     managers := <[this := mkManager subs]> (managers w);
     instance := instance w |}.

(** What [subscribe] leaves in the map: the old vector of the key, or an
    empty one, with the subscriber appended. *)
Definition subscribed (k : string) (p : N) (m : gmap string (list N))
  : gmap string (list N) :=
  <[k := default [] (m !! k) ++ [p]]> m.

(** The variant each recognised channel name stands for. *)
Definition variant_of (type : string) : option Notification :=
  if decide (type = "email") then Some EmailNotification
  else if decide (type = "sms") then Some SMSNotification
  else if decide (type = "push") then Some PushNotification
  else None.

(** The text made of the given lines, each ended by [std::endl]. *)
Fixpoint lines (ls : list string) : string :=
  match ls with
  | [] => EmptyString
  | l :: ls' => l +:+ endl +:+ lines ls'
  end.

(** One call of a function of the program, made by any caller in any
    world; a call whose behaviour is undefined makes no step. *)
Inductive step : World → World → Prop :=
  | step_getInstance (p : N) (w w' : World) :
      getInstance w = Some (p, w') → step w w'
  | step_subscribe (this : N) (type : string) (p : N) (w w' : World) :
      subscribe this type p w = Some (tt, w') → step w w'
  | step_notifySubscribers (this : N) (type message : string)
      (w w' : World) :
      notifySubscribers this type message w = Some (tt, w') → step w w'
  | step_sendNotification (this : N) (type message : string)
      (w w' : World) :
      sendNotification this type message w = Some (tt, w') → step w w'
  | step_new_User (name : string) (p : N) (w w' : World) :
      new_User name w = Some (p, w') → step w w'
  | step_delete_User (p : N) (w w' : World) :
      delete_User p w = Some (tt, w') → step w w'.

(** What one call does to the managers and to the static pointer: nothing,
    or the creation of the first manager, or one subscription. *)
Inductive managers_change (w w' : World) : Prop :=
  | change_none :
      managers w' = managers w → instance w' = instance w →
      managers_change w w'
  | change_created (p : N) :
      instance w = nullptr → p ≠ nullptr →
      managers w' = <[p := mkManager ∅]> (managers w) → instance w' = p →
      managers_change w w'
  | change_subscribed (this : N) (m : NotificationManager) (type : string)
      (p : N) :
      managers w !! this = Some m →
      managers w'
      = <[this := mkManager (subscribed type p (subscribers m))]>
          (managers w) →
      instance w' = instance w →
      managers_change w w'.

(** Either no manager exists and the static pointer is null, or the static
    pointer is the address of the only manager. *)
Definition singleton_inv (w : World) : Prop :=
  (instance w = nullptr ∧ managers w = ∅)
  ∨ (instance w ≠ nullptr ∧ dom (managers w) = {[instance w]}).

(** No key of a registry maps to an empty vector. *)
Definition registry_inv (w : World) : Prop :=
  ∀ (this : N) (m : NotificationManager) (k : string) (v : list N),
    managers w !! this = Some m → subscribers m !! k = Some v → v ≠ [].

(** The subscribers that the subscriptions [regs], made in that order,
    put on channel [type]. *)
Definition registered (regs : list (string * N)) (type : string) : list N :=
  snd <$> filter (λ r, r.1 = type) regs.

(** The registry that the subscriptions [regs], made in that order, turn
    the registry [m] into. *)
Definition registry_after (regs : list (string * N))
  (m : gmap string (list N)) : gmap string (list N) :=
  foldl (λ acc r, subscribed r.1 r.2 acc) m regs.

(** A client that makes the subscriptions [regs] in order. *)
Definition subscribe_all (this : N) (regs : list (string * N)) : M unit :=
  for_each regs (λ r, subscribe this r.1 r.2).

(** The world [main] is in after its four subscriptions (line 123): the
    manager at address 1, Alice at address 1 and Bob at address 2 of the
    [Subscriber] objects. *)
Definition demo_world : World :=
  {| cout := EmptyString; calls := [];
     objects := {[ 1%N := User "Alice"; 2%N := User "Bob" ]};
     managers :=
       {[ 1%N := mkManager {[ "email" := [1%N]; "sms" := [2%N];
                              "push" := [1%N; 2%N] ]} ]};
     instance := 1%N |}.

(** What a caller can see of a call: whether it returned and, if so, what
    [std::cout] holds and which virtual calls were made. *)
Definition observed (r : option (unit * World))
  : option (string * list Call) :=
  (λ x, (cout x.2, calls x.2)) <$> r.

(** * Reasoning about runs *)

(** ** Strings *)

Lemma append_nil_r (s : string) : s +:+ EmptyString = s.
Proof.
  induction s as [|a s IH]; [reflexivity|].
  change (String a (s +:+ EmptyString) = String a s). by rewrite IH.
Qed.

Lemma append_assoc (s1 s2 s3 : string) : (s1 +:+ s2) +:+ s3 = s1 +:+ s2 +:+ s3.
Proof.
  induction s1 as [|a s1 IH]; [reflexivity|].
  change (String a ((s1 +:+ s2) +:+ s3) = String a (s1 +:+ s2 +:+ s3)).
  by rewrite IH.
Qed.

(** ** Worlds *)

Lemma emit_nil (w : World) : emit EmptyString [] w = w.
Proof. destruct w. unfold emit. cbn. by rewrite append_nil_r, app_nil_r. Qed.

Lemma emit_emit (o1 o2 : string) (c1 c2 : list Call) (w : World) :
  emit o2 c2 (emit o1 c1 w) = emit (o1 +:+ o2) (c1 ++ c2) w.
Proof. unfold emit. cbn. by rewrite append_assoc, app_assoc. Qed.

(** ** The monad *)

Lemma bind_run {A B : Type} (m : M A) (f : A → M B) (w w1 : World) (a : A) :
  m w = Some (a, w1) → (m ≫= f) w = f a w1.
Proof. intros H. unfold mbind, M_bind. by rewrite H. Qed.

(** [run lem]: the first command of a sequence runs as [lem] says. *)
Tactic Notation "run" uconstr(lem) :=
  rewrite (bind_run _ _ _ _ _ lem).
Tactic Notation "run" uconstr(lem) "in" hyp(H) :=
  rewrite (bind_run _ _ _ _ _ lem) in H.

(** ** Output *)

Lemma print_run (s : string) (w : World) : print s w = Some (tt, emit s [] w).
Proof. unfold emit. by rewrite app_nil_r. Qed.

Lemma log_run (c : Call) (w : World) :
  log c w = Some (tt, emit EmptyString [c] w).
Proof. unfold emit. by rewrite append_nil_r. Qed.

(** Three chained [<<] ending in [std::endl]. *)
Lemma print_line_run (tag message : string) (w : World) :
  (print tag;; print message;; print endl) w
  = Some (tt, emit (tag +:+ message +:+ endl) [] w).
Proof.
  run (print_run _ _).
  run (print_run _ _).
  by rewrite print_run, !emit_emit.
Qed.

Lemma update_run (name message : string) (w : World) :
  update (User name) message w
  = Some (tt, emit (received_line name message) [] w).
Proof.
  unfold update. run (print_run _ _).
  by rewrite print_line_run, emit_emit.
Qed.

Lemma send_run (n : Notification) (message : string) (w : World) :
  send n message w = Some (tt, emit (send_tag n +:+ message +:+ endl) [] w).
Proof. destruct n; apply print_line_run. Qed.

Lemma invoke_send_run (n : Notification) (message : string) (w : World) :
  invoke_send n message w
  = Some (tt, emit (send_tag n +:+ message +:+ endl) [CallSend n message] w).
Proof.
  unfold invoke_send. run (log_run _ _).
  by rewrite send_run, emit_emit.
Qed.

Lemma deref_subscriber_run (p : N) (s : Subscriber) (w : World) :
  objects w !! p = Some s → deref_subscriber p w = Some (s, w).
Proof.
  intros Hp. unfold deref_subscriber, mbind, M_bind, get_world.
  by rewrite Hp.
Qed.

Lemma deref_subscriber_dangling (p : N) (w : World) :
  objects w !! p = None → deref_subscriber p w = None.
Proof.
  intros Hp. unfold deref_subscriber, mbind, M_bind, get_world.
  by rewrite Hp.
Qed.

Lemma invoke_update_run (p : N) (name message : string) (w : World) :
  objects w !! p = Some (User name) →
  invoke_update p message w
  = Some (tt, emit (received_line name message) [CallUpdate p message] w).
Proof.
  intros Hp. unfold invoke_update.
  run (deref_subscriber_run _ _ _ Hp).
  run (log_run _ _).
  by rewrite update_run, emit_emit.
Qed.

Lemma invoke_update_dangling (p : N) (message : string) (w : World) :
  objects w !! p = None → invoke_update p message w = None.
Proof.
  intros Hp. unfold invoke_update, mbind, M_bind.
  by rewrite (deref_subscriber_dangling _ _ Hp).
Qed.

(** ** The fan-out loop *)

Lemma for_each_update_run (subs : list N) (message : string) (w : World) :
  Forall (live (objects w)) subs →
  for_each subs (λ subscriber, invoke_update subscriber message) w
  = Some (tt, emit (received_lines (objects w) subs message)
                   (update_calls subs message) w).
Proof.
  revert w. induction subs as [|p subs IH]; intros w Hlive.
  - cbn. by rewrite emit_nil.
  - apply Forall_cons in Hlive as [[[name] Hp] Hlive].
    cbn [for_each].
    run (invoke_update_run _ _ _ _ Hp).
    rewrite IH by exact Hlive. rewrite emit_emit.
    cbn [received_lines update_calls fmap list_fmap objects emit].
    unfold name_at at 1. by rewrite Hp.
Qed.

(** A dangling pointer anywhere in the vector makes the loop undefined. *)
Lemma for_each_update_dangling (subs : list N) (message : string) (w : World) :
  ¬ Forall (live (objects w)) subs →
  for_each subs (λ subscriber, invoke_update subscriber message) w = None.
Proof.
  revert w. induction subs as [|p subs IH]; intros w Hdead.
  - destruct Hdead. constructor.
  - cbn [for_each]. destruct (objects w !! p) as [[name]|] eqn:Hp.
    + run (invoke_update_run _ _ _ _ Hp).
      apply IH. intros Hrest. apply Hdead. constructor; [by eexists|done].
    + unfold mbind, M_bind. by rewrite (invoke_update_dangling _ _ _ Hp).
Qed.

(** ** The registry *)

Lemma map_subscript_present (k : string) (m : gmap string (list N)) :
  is_Some (m !! k) → map_subscript k m = m.
Proof. intros [v Hv]. unfold map_subscript. by rewrite Hv. Qed.

Lemma lookup_map_subscript (k k' : string) (m : gmap string (list N)) :
  map_subscript k m !! k'
  = if decide (k = k') then Some (default [] (m !! k)) else m !! k'.
Proof.
  unfold map_subscript. destruct (m !! k) as [v|] eqn:Hk.
  - case_decide; [by subst|done].
  - rewrite lookup_insert. by case_decide.
Qed.

Lemma with_subscribers_id (this : N) (m : NotificationManager) (w : World) :
  managers w !! this = Some m → with_subscribers this (subscribers m) w = w.
Proof.
  intros Hm. destruct w, m. unfold with_subscribers. cbn in *.
  by rewrite insert_id.
Qed.

Lemma load_manager_run (this : N) (m : NotificationManager) (w : World) :
  managers w !! this = Some m → load_manager this w = Some (m, w).
Proof.
  intros Hm. unfold load_manager, mbind, M_bind, get_world. by rewrite Hm.
Qed.

Lemma load_manager_dangling (this : N) (w : World) :
  managers w !! this = None → load_manager this w = None.
Proof.
  intros Hm. unfold load_manager, mbind, M_bind, get_world. by rewrite Hm.
Qed.

Lemma store_manager_run (this : N) (m : NotificationManager)
  (subs : gmap string (list N)) (w : World) :
  managers w !! this = Some m →
  store_manager this (mkManager subs) w
  = Some (tt, with_subscribers this subs w).
Proof.
  intros Hm. unfold store_manager, mbind, M_bind, get_world. by rewrite Hm.
Qed.

Lemma alter_push_back_subscript (k : string) (p : N)
  (m : gmap string (list N)) :
  alter (push_back p) k (map_subscript k m) = subscribed k p m.
Proof.
  apply map_eq. intros k'. unfold subscribed.
  rewrite lookup_alter, lookup_insert. case_decide as Hk.
  - subst k'. rewrite lookup_map_subscript. by rewrite decide_True.
  - rewrite lookup_map_subscript. by rewrite decide_False.
Qed.

Lemma subscribe_run (this : N) (type : string) (p : N)
  (m : NotificationManager) (w : World) :
  managers w !! this = Some m →
  subscribe this type p w
  = Some (tt, with_subscribers this (subscribed type p (subscribers m)) w).
Proof.
  intros Hm. unfold subscribe.
  run (load_manager_run _ _ _ Hm).
  rewrite alter_push_back_subscript. by apply store_manager_run with m.
Qed.

Lemma subscribe_dangling (this : N) (type : string) (p : N) (w : World) :
  managers w !! this = None → subscribe this type p w = None.
Proof.
  intros Hm. unfold subscribe, mbind, M_bind.
  by rewrite (load_manager_dangling _ _ Hm).
Qed.

Lemma notifySubscribers_run (this : N) (type message : string)
  (m : NotificationManager) (w : World) :
  managers w !! this = Some m →
  Forall (live (objects w)) (subscribers m !!! type) →
  notifySubscribers this type message w
  = Some (tt, emit (received_lines (objects w) (subscribers m !!! type) message)
                   (update_calls (subscribers m !!! type) message) w).
Proof.
  intros Hm Hlive. unfold notifySubscribers.
  run (load_manager_run _ _ _ Hm).
  case_decide as Hk.
  - rewrite (map_subscript_present _ _ Hk).
    run (store_manager_run _ _ _ _ Hm).
    rewrite (with_subscribers_id _ _ _ Hm).
    by apply for_each_update_run.
  - apply eq_None_not_Some in Hk.
    rewrite lookup_total_alt, Hk. cbn. by rewrite emit_nil.
Qed.

(** ** The factory *)

Lemma createNotification_run (type : string) (w : World) :
  createNotification type w = Some (variant_of type, w).
Proof. unfold createNotification, variant_of. by repeat case_decide. Qed.

Lemma variant_of_Some (type : string) (n : Notification) :
  variant_of type = Some n ↔
  (type = "email" ∧ n = EmailNotification)
  ∨ (type = "sms" ∧ n = SMSNotification)
  ∨ (type = "push" ∧ n = PushNotification).
Proof.
  unfold variant_of. split.
  - repeat case_decide; naive_solver.
  - intros [[-> ->]|[[-> ->]|[-> ->]]]; reflexivity.
Qed.

Lemma variant_of_None (type : string) :
  variant_of type = None ↔ type ∉ ["email"; "sms"; "push"].
Proof.
  unfold variant_of. rewrite !not_elem_of_cons. split.
  - intros Hnone. repeat case_decide; try discriminate.
    repeat split; try done. apply not_elem_of_nil.
  - intros (He & Hs & Hp & _). by rewrite !decide_False.
Qed.

Lemma variant_of_valid (type : string) :
  type ∈ ["email"; "sms"; "push"] → is_Some (variant_of type).
Proof.
  intros Hin. destruct (variant_of type) eqn:Hv; [by eexists|].
  by apply variant_of_None in Hv.
Qed.

Lemma sendNotification_run (this : N) (type message : string)
  (n : Notification) (m : NotificationManager) (w : World) :
  variant_of type = Some n →
  managers w !! this = Some m →
  Forall (live (objects w)) (subscribers m !!! type) →
  sendNotification this type message w
  = Some (tt, emit ((send_tag n +:+ message +:+ endl)
                    +:+ received_lines (objects w) (subscribers m !!! type)
                          message)
                   (CallSend n message
                    :: update_calls (subscribers m !!! type) message) w).
Proof.
  intros Hn Hm Hlive. unfold sendNotification.
  run (createNotification_run _ _). rewrite Hn.
  run (invoke_send_run _ _ _).
  rewrite (notifySubscribers_run _ _ _ m) by done.
  by rewrite emit_emit.
Qed.

Lemma sendNotification_invalid_run (this : N) (type message : string)
  (w : World) :
  variant_of type = None →
  sendNotification this type message w
  = Some (tt, emit ("Invalid notification type: " +:+ type +:+ endl) [] w).
Proof.
  intros Hn. unfold sendNotification.
  run (createNotification_run _ _). rewrite Hn.
  apply print_line_run.
Qed.

(** ** Lines of output *)

Lemma received_lines_lines (objs : gmap N Subscriber) (subs : list N)
  (message : string) :
  received_lines objs subs message
  = lines ((λ p, name_at objs p +:+ " received notification: " +:+ message)
           <$> subs).
Proof.
  induction subs as [|p subs IH]; [reflexivity|].
  cbn [received_lines lines fmap list_fmap]. rewrite IH.
  unfold received_line. by rewrite !append_assoc.
Qed.

(** ** Runs that return *)

Lemma notifySubscribers_dangling (this : N) (type message : string)
  (m : NotificationManager) (w : World) :
  managers w !! this = Some m →
  ¬ Forall (live (objects w)) (subscribers m !!! type) →
  notifySubscribers this type message w = None.
Proof.
  intros Hm Hdead. unfold notifySubscribers.
  run (load_manager_run _ _ _ Hm).
  case_decide as Hk.
  - rewrite (map_subscript_present _ _ Hk).
    run (store_manager_run _ _ _ _ Hm).
    rewrite (with_subscribers_id _ _ _ Hm).
    by apply for_each_update_dangling.
  - apply eq_None_not_Some in Hk. destruct Hdead.
    rewrite lookup_total_alt, Hk. constructor.
Qed.

Lemma notifySubscribers_inv (this : N) (type message : string)
  (w w' : World) :
  notifySubscribers this type message w = Some (tt, w') →
  ∃ m, managers w !! this = Some m
       ∧ Forall (live (objects w)) (subscribers m !!! type)
       ∧ w' = emit (received_lines (objects w) (subscribers m !!! type)
                      message)
                   (update_calls (subscribers m !!! type) message) w.
Proof.
  intros Hrun. destruct (managers w !! this) as [m|] eqn:Hm.
  - exists m. split; [done|].
    destruct (decide (Forall (live (objects w)) (subscribers m !!! type)))
      as [Hlive|Hdead].
    + rewrite (notifySubscribers_run _ _ _ _ _ Hm Hlive) in Hrun.
      by simplify_eq.
    + by rewrite (notifySubscribers_dangling _ _ _ _ _ Hm Hdead) in Hrun.
  - unfold notifySubscribers, mbind, M_bind in Hrun.
    by rewrite (load_manager_dangling _ _ Hm) in Hrun.
Qed.

Lemma subscribe_inv (this : N) (type : string) (p : N) (w w' : World) :
  subscribe this type p w = Some (tt, w') →
  ∃ m, managers w !! this = Some m
       ∧ w' = with_subscribers this (subscribed type p (subscribers m)) w.
Proof.
  intros Hrun. destruct (managers w !! this) as [m|] eqn:Hm.
  - exists m. rewrite (subscribe_run _ _ _ _ _ Hm) in Hrun. by simplify_eq.
  - by rewrite (subscribe_dangling _ _ _ _ Hm) in Hrun.
Qed.

Lemma sendNotification_frame (this : N) (type message : string)
  (w w' : World) :
  sendNotification this type message w = Some (tt, w') →
  ∃ out cs, w' = emit out cs w.
Proof.
  unfold sendNotification. intros Hrun.
  run (createNotification_run _ _) in Hrun.
  destruct (variant_of type) as [n|].
  - run (invoke_send_run _ _ _) in Hrun.
    apply notifySubscribers_inv in Hrun as (m & _ & _ & ->).
    rewrite emit_emit. eauto.
  - rewrite print_line_run in Hrun. simplify_eq. eauto.
Qed.

Lemma getInstance_created (w : World) :
  instance w = nullptr →
  getInstance w
  = Some (fresh ({[nullptr]} ∪ dom (managers w)),
          {| cout := cout w; calls := calls w; objects := objects w;
             managers := <[fresh ({[nullptr]} ∪ dom (managers w))
                           := mkManager ∅]> (managers w);
             instance := fresh ({[nullptr]} ∪ dom (managers w)) |}).
Proof.
  intros Hnull. unfold getInstance, get_instance, mbind, M_bind, get_world.
  cbn. rewrite Hnull. by rewrite decide_True.
Qed.

Lemma getInstance_existing (w : World) :
  instance w ≠ nullptr → getInstance w = Some (instance w, w).
Proof.
  intros Hset. unfold getInstance, get_instance, mbind, M_bind, get_world.
  cbn. by rewrite decide_False.
Qed.

Lemma fresh_not_nullptr (X : gset N) : fresh ({[nullptr]} ∪ X) ≠ nullptr.
Proof.
  intros Heq. apply (is_fresh ({[nullptr]} ∪ X)). rewrite Heq. set_solver.
Qed.

(** ** What one call changes *)

Lemma new_User_run (name : string) (w : World) :
  new_User name w
  = Some (fresh ({[nullptr]} ∪ dom (objects w)),
          {| cout := cout w; calls := calls w;
             objects := <[fresh ({[nullptr]} ∪ dom (objects w)) := User name]>
                          (objects w);
             managers := managers w; instance := instance w |}).
Proof. reflexivity. Qed.

Lemma step_managers_change (w w' : World) :
  step w w' → managers_change w w'.
Proof.
  intros Hstep. destruct Hstep as
    [p w w' Hrun|this type p w w' Hrun|this type message w w' Hrun
    |this type message w w' Hrun|name p w w' Hrun|p w w' Hrun].
  - destruct (decide (instance w = nullptr)) as [Hnull|Hset].
    + rewrite (getInstance_created _ Hnull) in Hrun. simplify_eq.
      by apply (change_created _ _ (fresh ({[nullptr]} ∪ dom (managers w))));
        [|apply fresh_not_nullptr|..].
    + rewrite (getInstance_existing _ Hset) in Hrun. simplify_eq.
      by apply change_none.
  - apply subscribe_inv in Hrun as (m & Hm & ->).
    by apply (change_subscribed _ _ this m type p).
  - apply notifySubscribers_inv in Hrun as (m & _ & _ & ->).
    by apply change_none.
  - apply sendNotification_frame in Hrun as (out & cs & ->).
    by apply change_none.
  - rewrite new_User_run in Hrun. simplify_eq. by apply change_none.
  - unfold delete_User, mbind, M_bind, get_world, put_world in Hrun.
    simplify_eq. by apply change_none.
Qed.

(** * The singleton *)

Lemma step_singleton_inv (w w' : World) :
  step w w' → singleton_inv w →
  singleton_inv w' ∧ (instance w ≠ nullptr → instance w' = instance w).
Proof.
  intros Hstep Hinv. unfold singleton_inv in *.
  destruct (step_managers_change _ _ Hstep)
    as [-> ->|p Hnull Hp -> ->|this m type p Hm -> ->].
  - done.
  - split; [|done]. right. split; [done|].
    destruct Hinv as [[_ ->]|[? _]]; [|done].
    rewrite dom_insert_L, dom_empty_L. apply union_empty_r_L.
  - split; [|done]. destruct Hinv as [[_ Hempty]|[Hset Hdom]].
    + by rewrite Hempty, lookup_empty in Hm.
    + right. split; [done|]. rewrite dom_insert_L, Hdom.
      apply (elem_of_dom_2 (managers w)) in Hm. rewrite Hdom in Hm.
      apply elem_of_singleton in Hm as ->.
      apply union_idemp_L.
Qed.

Lemma steps_singleton_inv (w w' : World) :
  rtc step w w' → singleton_inv w →
  singleton_inv w' ∧ (instance w ≠ nullptr → instance w' = instance w).
Proof.
  induction 1 as [w|w w1 w2 Hstep _ IH]; intros Hinv; [done|].
  destruct (step_singleton_inv _ _ Hstep Hinv) as [Hinv1 Hkeep1].
  destruct (IH Hinv1) as [Hinv2 Hkeep2]. split; [done|].
  intros Hset. rewrite <- (Hkeep1 Hset). apply Hkeep2.
  by rewrite (Hkeep1 Hset).
Qed.

Lemma initial_singleton_inv : singleton_inv initial_world.
Proof. by left. Qed.



(** * The driver *)

Lemma main_setup_run :
  main_setup initial_world = Some ((1%N, 1%N, 2%N), demo_world).
Proof. vm_compute. reflexivity. Qed.

(** The whole run of [main]: exit code 0 and seven lines of output. *)
Lemma main_run :
  ∃ w : World,
    main initial_world = Some (0%Z, w)
    ∧ cout w
      = lines ["Sending Email: Your order has been placed.";
               "Alice received notification: Your order has been placed.";
               "Sending SMS: Your order is on the way.";
               "Bob received notification: Your order is on the way.";
               "Sending Push Notification: Your order has been delivered.";
               "Alice received notification: Your order has been delivered.";
               "Bob received notification: Your order has been delivered."]
    ∧ dom (managers w) = {[1%N]}.
Proof.
  eexists. split; [vm_compute; reflexivity|]. split; reflexivity.
Qed.

(** * The factory *)

(** C3. [createNotification] returns a result that depends on its argument
    alone and leaves the world as it found it: an Email notification exactly
    for "email", an SMS notification exactly for "sms", a Push notification
    exactly for "push", and no notification exactly for every other
    string. *)
Theorem createNotification_mapping (type : string) :
  ∃ r : option Notification,
    (∀ w : World, createNotification type w = Some (r, w))
    ∧ (r = Some EmailNotification ↔ type = "email")
    ∧ (r = Some SMSNotification ↔ type = "sms")
    ∧ (r = Some PushNotification ↔ type = "push")
    ∧ (r = None ↔ type ∉ ["email"; "sms"; "push"]).
Proof.
  exists (variant_of type). split; [apply createNotification_run|].
  rewrite variant_of_None. split; [|split; [|split; [|done]]].
  all: unfold variant_of; repeat case_decide; split; congruence.
Qed.

(** * The manager *)

(** ** Subscriptions in sequence *)

Lemma lookup_total_subscribed (k k' : string) (p : N)
  (m : gmap string (list N)) :
  subscribed k p m !!! k'
  = if decide (k = k') then m !!! k ++ [p] else m !!! k'.
Proof.
  unfold subscribed. rewrite !lookup_total_alt, lookup_insert.
  by case_decide.
Qed.

Lemma registry_after_lookup_total (regs : list (string * N)) (type : string)
  (m : gmap string (list N)) :
  registry_after regs m !!! type = m !!! type ++ registered regs type.
Proof.
  revert m. induction regs as [|[k p] regs IH]; intros m.
  - cbn. by rewrite app_nil_r.
  - change (registry_after ((k, p) :: regs) m)
      with (registry_after regs (subscribed k p m)).
    rewrite IH, lookup_total_subscribed. unfold registered.
    case_decide as Hk.
    + subst k. rewrite filter_cons_True by done. cbn.
      by rewrite <- app_assoc.
    + by rewrite filter_cons_False by done.
Qed.

Lemma with_subscribers_twice (this : N) (s1 s2 : gmap string (list N))
  (w : World) :
  with_subscribers this s2 (with_subscribers this s1 w)
  = with_subscribers this s2 w.
Proof. unfold with_subscribers. cbn. by rewrite insert_insert_eq. Qed.

Lemma subscribe_all_run (this : N) (regs : list (string * N))
  (m : NotificationManager) (w : World) :
  managers w !! this = Some m →
  subscribe_all this regs w
  = Some (tt, with_subscribers this (registry_after regs (subscribers m)) w).
Proof.
  revert m w. induction regs as [|[k p] regs IH]; intros m w Hm.
  - cbn. by rewrite (with_subscribers_id _ _ _ Hm).
  - change (subscribe_all this ((k, p) :: regs))
      with (subscribe this k p;; subscribe_all this regs).
    change (registry_after ((k, p) :: regs) (subscribers m))
      with (registry_after regs (subscribed k p (subscribers m))).
    run (subscribe_run _ _ _ _ _ Hm).
    rewrite (IH (mkManager (subscribed k p (subscribers m)))).
    + by rewrite with_subscribers_twice.
    + cbn. apply lookup_insert_eq.
Qed.

(** ** Sending *)

(** C1. Take any world with a live manager, let any further subscriptions
    [regs] be made in order, and send on one of the three channels.  The
    call makes exactly these virtual calls, in this order: one
    [send(message)] on the notification of the variant that matches the
    channel, which is the one the factory built inside this call, and then
    one [update(message)] per subscriber of the channel, the earlier ones
    first and those of [regs] after them in the order of [regs]. *)
Theorem sendNotification_valid_calls (this : N) (type message : string)
  (regs : list (string * N)) (m : NotificationManager) (w : World) :
  type ∈ ["email"; "sms"; "push"] →
  managers w !! this = Some m →
  Forall (live (objects w)) (subscribers m !!! type ++ registered regs type) →
  ∃ (n : Notification) (w1 w2 : World),
    subscribe_all this regs w = Some (tt, w1)
    ∧ createNotification type w1 = Some (Some n, w1)
    ∧ ((type = "email" ∧ n = EmailNotification)
       ∨ (type = "sms" ∧ n = SMSNotification)
       ∨ (type = "push" ∧ n = PushNotification))
    ∧ sendNotification this type message w1 = Some (tt, w2)
    ∧ calls w2
      = calls w1
        ++ CallSend n message
           :: ((λ p, CallUpdate p message)
               <$> (subscribers m !!! type ++ registered regs type)).
Proof.
  intros Hvalid Hm Hlive.
  destruct (variant_of_valid _ Hvalid) as [n Hn].
  set (w1 := with_subscribers this (registry_after regs (subscribers m)) w).
  assert (managers w1 !! this
          = Some (mkManager (registry_after regs (subscribers m)))) as Hm1.
  { apply lookup_insert_eq. }
  assert (Forall (live (objects w1))
            (subscribers (mkManager (registry_after regs (subscribers m)))
             !!! type)) as Hlive1.
  { cbn. by rewrite registry_after_lookup_total. }
  exists n, w1,
    (emit ((send_tag n +:+ message +:+ endl)
           +:+ received_lines (objects w1)
                 (registry_after regs (subscribers m) !!! type) message)
          (CallSend n message
           :: update_calls (registry_after regs (subscribers m) !!! type)
                message) w1).
  split; [by apply subscribe_all_run|].
  split; [by rewrite createNotification_run, Hn|].
  split; [by apply variant_of_Some|].
  split; [by apply (sendNotification_run _ _ _ _ _ _ Hn Hm1 Hlive1)|].
  cbn [calls emit]. by rewrite registry_after_lookup_total.
Qed.

(** In the driver's world, with Alice subscribed to "push" once more. *)
Lemma sendNotification_valid_calls_witness :
  ∃ (n : Notification) (w1 w2 : World),
    subscribe_all 1%N [("push", 1%N)] demo_world = Some (tt, w1)
    ∧ createNotification "push" w1 = Some (Some n, w1)
    ∧ (("push" = "email" ∧ n = EmailNotification)
       ∨ ("push" = "sms" ∧ n = SMSNotification)
       ∨ ("push" = "push" ∧ n = PushNotification))
    ∧ sendNotification 1%N "push" "hello" w1 = Some (tt, w2)
    ∧ calls w2
      = calls w1
        ++ CallSend n "hello"
           :: ((λ p, CallUpdate p "hello") <$> [1%N; 2%N; 1%N]).
Proof.
  refine (sendNotification_valid_calls 1%N "push" "hello" [("push", 1%N)]
            (mkManager {[ "email" := [1%N]; "sms" := [2%N];
                          "push" := [1%N; 2%N] ]}) demo_world _ _ _).
  - compute_done.
  - vm_compute. reflexivity.
  - compute_done.
Defined.

(** C2. For a channel name other than "email", "sms" and "push", in any
    world, [sendNotification] writes the line
    "Invalid notification type: <channel>" and nothing else, makes no
    virtual call at all (so no [update]), and changes nothing else.  This
    also holds right after a subscriber was registered under that very
    name. *)
Theorem sendNotification_invalid_diagnostic (this : N) (type message : string)
  (w : World) :
  type ∉ ["email"; "sms"; "push"] →
  (∃ w' : World,
     sendNotification this type message w = Some (tt, w')
     ∧ cout w' = cout w +:+ "Invalid notification type: " +:+ type +:+ endl
     ∧ calls w' = calls w
     ∧ objects w' = objects w
     ∧ managers w' = managers w
     ∧ instance w' = instance w)
  ∧ ∀ (p : N) (m : NotificationManager),
      managers w !! this = Some m →
      ∃ (m1 : NotificationManager) (w1 w2 : World),
        subscribe this type p w = Some (tt, w1)
        ∧ managers w1 !! this = Some m1
        ∧ p ∈ subscribers m1 !!! type
        ∧ sendNotification this type message w1 = Some (tt, w2)
        ∧ cout w2
          = cout w1 +:+ "Invalid notification type: " +:+ type +:+ endl
        ∧ calls w2 = calls w1.
Proof.
  intros Hinvalid. apply variant_of_None in Hinvalid.
  assert (∀ w0 : World,
            sendNotification this type message w0
            = Some (tt, emit ("Invalid notification type: " +:+ type +:+ endl)
                          [] w0)) as Hrun.
  { intros w0. by apply sendNotification_invalid_run. }
  split.
  - eexists. split; [apply Hrun|]. cbn. by rewrite app_nil_r.
  - intros p m Hm.
    exists (mkManager (subscribed type p (subscribers m))).
    eexists. eexists. split; [by apply subscribe_run|].
    split; [apply lookup_insert_eq|]. split.
    + cbn. rewrite lookup_total_subscribed, decide_True by done.
      apply elem_of_app. right. apply list_elem_of_singleton. done.
    + split; [apply Hrun|]. cbn. by rewrite app_nil_r.
Qed.

(** Channel "fax" in the driver's world. *)
Lemma sendNotification_invalid_diagnostic_witness :
  (∃ w' : World,
     sendNotification 1%N "fax" "hello" demo_world = Some (tt, w')
     ∧ cout w'
       = cout demo_world +:+ "Invalid notification type: " +:+ "fax" +:+ endl
     ∧ calls w' = calls demo_world
     ∧ objects w' = objects demo_world
     ∧ managers w' = managers demo_world
     ∧ instance w' = instance demo_world)
  ∧ ∀ (p : N) (m : NotificationManager),
      managers demo_world !! 1%N = Some m →
      ∃ (m1 : NotificationManager) (w1 w2 : World),
        subscribe 1%N "fax" p demo_world = Some (tt, w1)
        ∧ managers w1 !! 1%N = Some m1
        ∧ p ∈ subscribers m1 !!! "fax"
        ∧ sendNotification 1%N "fax" "hello" w1 = Some (tt, w2)
        ∧ cout w2
          = cout w1 +:+ "Invalid notification type: " +:+ "fax" +:+ endl
        ∧ calls w2 = calls w1.
Proof.
  refine (sendNotification_invalid_diagnostic 1%N "fax" "hello" demo_world _).
  compute_done.
Defined.

(** ** Fan-out *)

(** C5. In a world where the manager and the subscribers of the channel are
    live, [notifySubscribers] returns; when the channel is a key of the
    registry it makes one [update(message)] call per subscriber of the
    channel's vector, in the vector's order, each writing its line; when the
    channel is no key, or its vector is empty, the world is left exactly as
    it was. *)
Theorem notifySubscribers_fanout (this : N) (type message : string)
  (m : NotificationManager) (w : World) :
  managers w !! this = Some m →
  Forall (live (objects w)) (subscribers m !!! type) →
  ∃ w' : World,
    notifySubscribers this type message w = Some (tt, w')
    ∧ (∀ subs : list N,
         subscribers m !! type = Some subs →
         calls w' = calls w ++ ((λ p, CallUpdate p message) <$> subs)
         ∧ cout w'
           = cout w
             +:+ lines ((λ p, name_at (objects w) p
                              +:+ " received notification: " +:+ message)
                        <$> subs)
         ∧ objects w' = objects w
         ∧ managers w' = managers w
         ∧ instance w' = instance w)
    ∧ (subscribers m !! type = None ∨ subscribers m !! type = Some [] →
       w' = w).
Proof.
  intros Hm Hlive. eexists.
  split; [by apply (notifySubscribers_run _ _ _ m)|]. split.
  - intros subs Hsubs. rewrite lookup_total_alt, Hsubs. cbn.
    by rewrite received_lines_lines.
  - intros [Hnone|Hempty]; rewrite lookup_total_alt.
    + rewrite Hnone. apply emit_nil.
    + rewrite Hempty. apply emit_nil.
Qed.

(** Channel "push" in the driver's world. *)
Lemma notifySubscribers_fanout_witness :
  ∃ w' : World,
    notifySubscribers 1%N "push" "hello" demo_world = Some (tt, w')
    ∧ calls w' = [CallUpdate 1%N "hello"; CallUpdate 2%N "hello"]
    ∧ cout w'
      = lines ["Alice received notification: hello";
               "Bob received notification: hello"].
Proof.
  destruct (notifySubscribers_fanout 1%N "push" "hello"
              (mkManager {[ "email" := [1%N]; "sms" := [2%N];
                            "push" := [1%N; 2%N] ]}) demo_world)
    as (w' & Hrun & Hpresent & _).
  - vm_compute. reflexivity.
  - compute_done.
  - exists w'. split; [exact Hrun|].
    destruct (Hpresent [1%N; 2%N]) as (Hcalls & Hcout & _).
    + vm_compute. reflexivity.
    + split; [exact Hcalls|exact Hcout].
Defined.

(** C6. A send on one of the three channels, in a world where the manager
    and the subscribers of the channel are live, writes exactly: the line
    made of the channel's tag and the message, then one line
    "<name> received notification: <message>" per subscriber of the channel,
    in the order of the channel's vector. *)
Theorem sendNotification_valid_output (this : N) (type message : string)
  (m : NotificationManager) (w : World) :
  type ∈ ["email"; "sms"; "push"] →
  managers w !! this = Some m →
  Forall (live (objects w)) (subscribers m !!! type) →
  ∃ (tag : string) (w' : World),
    sendNotification this type message w = Some (tt, w')
    ∧ ((type = "email" ∧ tag = "Sending Email: ")
       ∨ (type = "sms" ∧ tag = "Sending SMS: ")
       ∨ (type = "push" ∧ tag = "Sending Push Notification: "))
    ∧ cout w'
      = cout w
        +:+ lines ((tag +:+ message)
                   :: ((λ p, name_at (objects w) p
                             +:+ " received notification: " +:+ message)
                       <$> subscribers m !!! type)).
Proof.
  intros Hvalid Hm Hlive.
  destruct (variant_of_valid _ Hvalid) as [n Hn].
  exists (send_tag n). eexists.
  split; [by apply (sendNotification_run _ _ _ n m)|]. split.
  - apply variant_of_Some in Hn as [[-> ->]|[[-> ->]|[-> ->]]]; auto.
  - cbn [cout emit lines]. rewrite received_lines_lines.
    by rewrite !append_assoc.
Qed.

(** Channel "push" in the driver's world. *)
Lemma sendNotification_valid_output_witness :
  ∃ (tag : string) (w' : World),
    sendNotification 1%N "push" "hello" demo_world = Some (tt, w')
    ∧ (("push" = "email" ∧ tag = "Sending Email: ")
       ∨ ("push" = "sms" ∧ tag = "Sending SMS: ")
       ∨ ("push" = "push" ∧ tag = "Sending Push Notification: "))
    ∧ cout w'
      = cout demo_world
        +:+ lines ((tag +:+ "hello")
                   :: ((λ p, name_at (objects demo_world) p
                             +:+ " received notification: " +:+ "hello")
                       <$> [1%N; 2%N])).
Proof.
  refine (sendNotification_valid_output 1%N "push" "hello"
            (mkManager {[ "email" := [1%N]; "sms" := [2%N];
                          "push" := [1%N; 2%N] ]}) demo_world _ _ _).
  - compute_done.
  - vm_compute. reflexivity.
  - compute_done.
Defined.

(** ** Subscribing *)

Lemma subscribed_twice (k : string) (p : N) (s : gmap string (list N)) :
  subscribed k p (subscribed k p s)
  = <[k := default [] (s !! k) ++ [p; p]]> s.
Proof.
  unfold subscribed. rewrite lookup_insert_eq, insert_insert_eq. cbn.
  by rewrite <- app_assoc.
Qed.

(** C4. On a live manager, [subscribe] returns and changes one thing only:
    the vector of the channel, taken as empty when the channel was no key,
    gets the subscriber appended at its end.  A second, identical
    subscription appends the same pointer once more; after it both the
    fan-out on that channel and, when the channel has a notification
    variant, a send on it call [update(message)] on that subscriber twice
    in a row, after the earlier subscribers. *)
Theorem subscribe_appends (this : N) (type message : string) (p : N)
  (m : NotificationManager) (w : World) :
  managers w !! this = Some m →
  ∃ w1 w2 : World,
    subscribe this type p w = Some (tt, w1)
    ∧ managers w1
      = <[this := mkManager (<[type := default [] (subscribers m !! type)
                                         ++ [p]]> (subscribers m))]>
          (managers w)
    ∧ cout w1 = cout w ∧ calls w1 = calls w ∧ objects w1 = objects w
    ∧ instance w1 = instance w
    ∧ subscribe this type p w1 = Some (tt, w2)
    ∧ managers w2
      = <[this := mkManager (<[type := default [] (subscribers m !! type)
                                         ++ [p; p]]> (subscribers m))]>
          (managers w)
    ∧ (Forall (live (objects w)) (default [] (subscribers m !! type) ++ [p]) →
       (∃ w3 : World,
          notifySubscribers this type message w2 = Some (tt, w3)
          ∧ calls w3
            = calls w
              ++ ((λ q, CallUpdate q message)
                  <$> default [] (subscribers m !! type))
              ++ [CallUpdate p message; CallUpdate p message])
       ∧ ∀ n : Notification,
           createNotification type w2 = Some (Some n, w2) →
           ∃ w4 : World,
             sendNotification this type message w2 = Some (tt, w4)
             ∧ calls w4
               = calls w
                 ++ CallSend n message
                    :: ((λ q, CallUpdate q message)
                        <$> default [] (subscribers m !! type))
                    ++ [CallUpdate p message; CallUpdate p message]).
Proof.
  intros Hm.
  set (old := default [] (subscribers m !! type)).
  set (w1 := with_subscribers this (subscribed type p (subscribers m)) w).
  set (s2 := <[type := old ++ [p; p]]> (subscribers m)).
  assert (managers w1 !! this
          = Some (mkManager (subscribed type p (subscribers m)))) as Hm1.
  { apply lookup_insert_eq. }
  assert (subscribe this type p w1 = Some (tt, with_subscribers this s2 w))
    as Hrun2.
  { rewrite (subscribe_run _ _ _ _ _ Hm1). cbn [subscribers]. unfold w1.
    by rewrite subscribed_twice, with_subscribers_twice. }
  exists w1, (with_subscribers this s2 w).
  split; [by apply subscribe_run|]. do 5 (split; [done|]).
  split; [exact Hrun2|]. split; [done|].
  intros Hlive.
  assert (managers (with_subscribers this s2 w) !! this
          = Some (mkManager s2)) as Hm2.
  { apply lookup_insert_eq. }
  assert (subscribers (mkManager s2) !!! type = old ++ [p; p]) as Hsubs.
  { cbn. unfold s2. by rewrite lookup_total_alt, lookup_insert_eq. }
  assert (Forall (live (objects (with_subscribers this s2 w)))
            (subscribers (mkManager s2) !!! type)) as Hlive2.
  { rewrite Hsubs. cbn [objects with_subscribers].
    rewrite Forall_app, Forall_singleton in Hlive.
    destruct Hlive as [Hold Hp]. rewrite Forall_app. split; [done|].
    by repeat constructor. }
  split.
  - eexists. split; [by apply (notifySubscribers_run _ _ _ (mkManager s2))|].
    cbn [calls emit with_subscribers]. rewrite Hsubs. unfold update_calls.
    by rewrite fmap_app.
  - intros n Hn. rewrite createNotification_run in Hn.
    assert (variant_of type = Some n) as Hv by congruence.
    eexists.
    split; [by apply (sendNotification_run _ _ _ n (mkManager s2))|].
    cbn [calls emit with_subscribers]. rewrite Hsubs. unfold update_calls.
    by rewrite fmap_app.
Qed.

(** Bob subscribes twice to "email" in the driver's world. *)
Lemma subscribe_appends_witness :
  ∃ w1 w2 w3 w4 : World,
    subscribe 1%N "email" 2%N demo_world = Some (tt, w1)
    ∧ subscribe 1%N "email" 2%N w1 = Some (tt, w2)
    ∧ notifySubscribers 1%N "email" "hello" w2 = Some (tt, w3)
    ∧ calls w3
      = [CallUpdate 1%N "hello"; CallUpdate 2%N "hello";
         CallUpdate 2%N "hello"]
    ∧ sendNotification 1%N "email" "hello" w2 = Some (tt, w4)
    ∧ calls w4
      = [CallSend EmailNotification "hello"; CallUpdate 1%N "hello";
         CallUpdate 2%N "hello"; CallUpdate 2%N "hello"].
Proof.
  destruct (subscribe_appends 1%N "email" "hello" 2%N
              (mkManager {[ "email" := [1%N]; "sms" := [2%N];
                            "push" := [1%N; 2%N] ]}) demo_world)
    as (w1 & w2 & Hrun1 & _ & _ & _ & _ & _ & Hrun2 & _ & Htwice).
  - vm_compute. reflexivity.
  - destruct Htwice as [(w3 & Hrun3 & Hcalls3) Hsend].
    + compute_done.
    + destruct (Hsend EmailNotification) as (w4 & Hrun4 & Hcalls4).
      * apply createNotification_run.
      * exists w1, w2, w3, w4. repeat split; assumption.
Defined.

(** ** The driver's first notification *)

(** C8. In any world where the manager's registry holds Alice under
    "email", Bob under "sms" and Alice then Bob under "push", sending
    "Your order has been placed." on "email" writes exactly two lines: the
    Email line and Alice's line. *)
Theorem sendNotification_email_scenario (this alice bob : N)
  (m : NotificationManager) (w : World) :
  managers w !! this = Some m →
  subscribers m !! "email" = Some [alice] →
  subscribers m !! "sms" = Some [bob] →
  subscribers m !! "push" = Some [alice; bob] →
  objects w !! alice = Some (User "Alice") →
  objects w !! bob = Some (User "Bob") →
  ∃ w' : World,
    sendNotification this "email" "Your order has been placed." w
    = Some (tt, w')
    ∧ cout w'
      = cout w
        +:+ lines ["Sending Email: Your order has been placed.";
                   "Alice received notification: Your order has been placed."].
Proof.
  intros Hm Hemail _ _ Halice _.
  assert (subscribers m !!! "email" = [alice]) as Hsubs.
  { by rewrite lookup_total_alt, Hemail. }
  eexists. split.
  - apply (sendNotification_run _ _ _ EmailNotification m); [done|done|].
    rewrite Hsubs. apply Forall_singleton. by eexists.
  - rewrite Hsubs. cbn [cout emit received_lines]. unfold name_at.
    rewrite Halice. reflexivity.
Qed.

(** The world of the driver itself, as [main_setup] leaves it. *)
Lemma sendNotification_email_scenario_witness :
  main_setup initial_world = Some ((1%N, 1%N, 2%N), demo_world)
  ∧ ∃ w' : World,
      sendNotification 1%N "email" "Your order has been placed." demo_world
      = Some (tt, w')
      ∧ cout w'
        = cout demo_world
          +:+ lines ["Sending Email: Your order has been placed.";
                     "Alice received notification: Your order has been placed."].
Proof.
  split; [vm_compute; reflexivity|].
  refine (sendNotification_email_scenario 1%N 1%N 2%N
            (mkManager {[ "email" := [1%N]; "sms" := [2%N];
                          "push" := [1%N; 2%N] ]}) demo_world _ _ _ _ _ _);
    vm_compute; reflexivity.
Defined.

(** ** The registry is only written by [subscribe] *)

(** C9. Whatever the channel name and the message, a call of
    [notifySubscribers] or of [sendNotification] that returns leaves every
    manager, hence every registry, exactly as it was: no vector changes and
    no key appears, be the name unrecognised or absent from the registry.
    And both calls do return when the manager and the subscribers of the
    channel are live. *)
Theorem registry_unchanged (this : N) (type message : string) (w : World) :
  (∀ w' : World,
     notifySubscribers this type message w = Some (tt, w')
     ∨ sendNotification this type message w = Some (tt, w') →
     managers w' = managers w)
  ∧ (∀ m : NotificationManager,
       managers w !! this = Some m →
       Forall (live (objects w)) (subscribers m !!! type) →
       ∃ w1 w2 : World,
         notifySubscribers this type message w = Some (tt, w1)
         ∧ sendNotification this type message w = Some (tt, w2)).
Proof.
  split.
  - intros w' [Hrun|Hrun].
    + by apply notifySubscribers_inv in Hrun as (m & _ & _ & ->).
    + by apply sendNotification_frame in Hrun as (out & cs & ->).
  - intros m Hm Hlive. eexists.
    destruct (variant_of type) as [n|] eqn:Hn; eexists.
    + split; [by apply (notifySubscribers_run _ _ _ m)|].
      by apply (sendNotification_run _ _ _ n m).
    + split; [by apply (notifySubscribers_run _ _ _ m)|].
      by apply sendNotification_invalid_run.
Qed.

(** Channel "fax", unrecognised and absent, in the driver's world. *)
Lemma registry_unchanged_witness :
  ∃ w1 w2 : World,
    notifySubscribers 1%N "fax" "hello" demo_world = Some (tt, w1)
    ∧ sendNotification 1%N "fax" "hello" demo_world = Some (tt, w2)
    ∧ managers w1 = managers demo_world
    ∧ managers w2 = managers demo_world
    ∧ managers w2 !! 1%N
      = Some (mkManager {[ "email" := [1%N]; "sms" := [2%N];
                           "push" := [1%N; 2%N] ]}).
Proof.
  destruct (registry_unchanged 1%N "fax" "hello" demo_world)
    as [Hsame Hreturn].
  destruct (Hreturn (mkManager {[ "email" := [1%N]; "sms" := [2%N];
                                  "push" := [1%N; 2%N] ]}))
    as (w1 & w2 & Hrun1 & Hrun2).
  - vm_compute. reflexivity.
  - compute_done.
  - exists w1, w2. split; [exact Hrun1|]. split; [exact Hrun2|].
    assert (managers w2 = managers demo_world) as Hm2.
    { apply Hsame. by right. }
    split; [apply Hsame; by left|]. split; [exact Hm2|].
    rewrite Hm2. vm_compute. reflexivity.
Defined.

(** ** No empty vector in a registry *)

Lemma step_registry_inv (w w' : World) :
  registry_inv w → step w w' → registry_inv w'.
Proof.
  intros Hinv Hstep this' m' k v. unfold registry_inv in Hinv.
  destruct (step_managers_change _ _ Hstep)
    as [-> _|p _ _ -> _|this m type p Hm -> _].
  - apply Hinv.
  - rewrite lookup_insert. case_decide; [|apply Hinv].
    intros ? Hk. simplify_eq.
  - rewrite lookup_insert. case_decide; [|apply Hinv].
    intros ? Hk. simplify_eq. cbn in Hk. unfold subscribed in Hk.
    rewrite lookup_insert in Hk. case_decide.
    + simplify_eq. intros Hnil. by apply app_nil in Hnil as [_ ?].
    + by apply (Hinv this' m k).
Qed.

Lemma initial_registry_inv : registry_inv initial_world.
Proof. intros this m k v Hm. cbn in Hm. by rewrite lookup_empty in Hm. Qed.

(** C10. In every world reached from process start by calls of the
    program's functions, every key of every registry maps to a non-empty
    vector; and from any world where that holds, one more call of
    [getInstance], [subscribe], [notifySubscribers] or [sendNotification]
    (or a construction or destruction of a user) keeps it so.  On a live
    manager [subscribe] returns and appends the subscriber to the vector it
    finds under the channel, or to the empty vector of the entry it
    creates, so that the entry it leaves is not empty; and, the pointers
    involved being live, [notifySubscribers] and [sendNotification] return
    and leave every registry as it was, creating no entry. *)
Theorem registry_entries_nonempty (w w' : World) :
  (rtc step initial_world w → registry_inv w)
  ∧ (registry_inv w → step w w' → registry_inv w')
  ∧ (∀ (this : N) (type : string) (p : N) (m : NotificationManager),
       managers w !! this = Some m →
       ∃ (v : list N) (w1 : World),
         subscribe this type p w = Some (tt, w1)
         ∧ ((subscribers m !! type = None ∧ v = [])
            ∨ subscribers m !! type = Some v)
         ∧ managers w1
           = <[this := mkManager (<[type := v ++ [p]]> (subscribers m))]>
               (managers w)
         ∧ v ++ [p] ≠ []
         ∧ (registry_inv w → registry_inv w1))
  ∧ (∀ (this : N) (type message : string) (m : NotificationManager),
       managers w !! this = Some m →
       Forall (live (objects w)) (subscribers m !!! type) →
       registry_inv w →
       ∃ w1 w2 : World,
         notifySubscribers this type message w = Some (tt, w1)
         ∧ managers w1 = managers w
         ∧ registry_inv w1
         ∧ sendNotification this type message w = Some (tt, w2)
         ∧ managers w2 = managers w
         ∧ registry_inv w2).
Proof.
  split; [|split; [apply step_registry_inv|split]].
  - intros Hreach.
    apply rtc_ind_r with (x := initial_world) (P := registry_inv) in Hreach;
      [done|apply initial_registry_inv|].
    intros w1 w2 _ Hstep Hinv. by apply (step_registry_inv w1).
  - intros this type p m Hm.
    pose proof (subscribe_run _ type p _ _ Hm) as Hrun.
    exists (default [] (subscribers m !! type)). eexists.
    split; [exact Hrun|]. split.
    { destruct (subscribers m !! type) as [v|]; [by right|by left]. }
    split; [reflexivity|]. split.
    { intros Hnil. by apply app_nil in Hnil as [_ ?]. }
    intros Hinv. apply (step_registry_inv w); [done|].
    by apply (step_subscribe this type p).
  - intros this type message m Hm Hlive Hinv.
    pose proof (notifySubscribers_run _ _ message _ _ Hm Hlive) as Hrun1.
    assert (∃ w2, sendNotification this type message w = Some (tt, w2)
                  ∧ managers w2 = managers w) as (w2 & Hrun2 & Hsame2).
    { destruct (variant_of type) as [n|] eqn:Hn.
      - eexists. by split; [apply (sendNotification_run _ _ _ n m)|].
      - eexists. by split; [apply sendNotification_invalid_run|]. }
    eexists _, w2. split; [exact Hrun1|]. split; [reflexivity|].
    split.
    { apply (step_registry_inv w); [done|].
      by apply (step_notifySubscribers this type message). }
    split; [exact Hrun2|]. split; [exact Hsame2|].
    apply (step_registry_inv w); [done|].
    by apply (step_sendNotification this type message).
Qed.

(** The driver's world, reached from process start, and in it the
    subscription of Bob to the new channel "fax": the entry it creates
    holds Bob alone. *)
Lemma registry_entries_nonempty_witness :
  registry_inv demo_world
  ∧ ∃ w1 : World,
      subscribe 1%N "fax" 2%N demo_world = Some (tt, w1)
      ∧ step demo_world w1
      ∧ registry_inv w1
      ∧ managers w1
        = <[1%N := mkManager (<["fax" := [2%N]]>
                                {[ "email" := [1%N]; "sms" := [2%N];
                                   "push" := [1%N; 2%N] ]})]>
            (managers demo_world).
Proof.
  assert (rtc step initial_world demo_world) as Hreach.
  { assert (∀ w1 w2 w3, step w1 w2 → rtc step w2 w3 → rtc step w1 w3)
      as Hcons by (intros w1 w2 w3; apply rtc_l).
    eapply Hcons; [by apply (step_getInstance 1%N); vm_compute|].
    eapply Hcons; [by apply (step_new_User "Alice" 1%N); vm_compute|].
    eapply Hcons; [by apply (step_new_User "Bob" 2%N); vm_compute|].
    eapply Hcons; [by apply (step_subscribe 1%N "email" 1%N); vm_compute|].
    eapply Hcons; [by apply (step_subscribe 1%N "sms" 2%N); vm_compute|].
    eapply Hcons; [by apply (step_subscribe 1%N "push" 1%N); vm_compute|].
    eapply Hcons; [by apply (step_subscribe 1%N "push" 2%N); vm_compute|].
    apply rtc_refl. }
  destruct (registry_entries_nonempty demo_world demo_world)
    as (Hreached & _ & Hsubscribe & _).
  pose proof (Hreached Hreach) as Hinv. split; [exact Hinv|].
  destruct (Hsubscribe 1%N "fax" 2%N
              (mkManager {[ "email" := [1%N]; "sms" := [2%N];
                            "push" := [1%N; 2%N] ]}))
    as (v & w1 & Hrun & Hentry & Hmanagers & _ & Hkept).
  { vm_compute. reflexivity. }
  destruct Hentry as [[_ ->]|Hfound]; [|vm_compute in Hfound; discriminate].
  exists w1. split; [exact Hrun|].
  split; [by apply (step_subscribe 1%N "fax" 2%N)|].
  split; [by apply Hkept|exact Hmanagers].
Defined.

(** * Beyond the driver: when calls are defined *)

Lemma sendNotification_inv (this : N) (type message : string)
  (w w' : World) :
  sendNotification this type message w = Some (tt, w') →
  (variant_of type = None
   ∧ w' = emit ("Invalid notification type: " +:+ type +:+ endl) [] w)
  ∨ (∃ (n : Notification) (m : NotificationManager),
       variant_of type = Some n
       ∧ managers w !! this = Some m
       ∧ Forall (live (objects w)) (subscribers m !!! type)
       ∧ w' = emit ((send_tag n +:+ message +:+ endl)
                    +:+ received_lines (objects w) (subscribers m !!! type)
                          message)
                   (CallSend n message
                    :: update_calls (subscribers m !!! type) message) w).
Proof.
  intros Hrun. destruct (variant_of type) as [n|] eqn:Hn.
  - right. unfold sendNotification in Hrun.
    run (createNotification_run _ _) in Hrun. rewrite Hn in Hrun.
    run (invoke_send_run _ _ _) in Hrun.
    apply notifySubscribers_inv in Hrun as (m & Hm & Hlive & ->).
    exists n, m. rewrite emit_emit. done.
  - left. split; [done|].
    rewrite (sendNotification_invalid_run _ _ _ _ Hn) in Hrun.
    by simplify_eq.
Qed.

(** X2. [notifySubscribers] has defined behaviour exactly when [this]
    points to a live manager and every pointer in the channel's vector
    points to a live subscriber; a channel that is no key asks nothing of
    the subscribers. *)
Theorem notifySubscribers_defined_iff (this : N) (type message : string)
  (w : World) :
  is_Some (notifySubscribers this type message w)
  ↔ ∃ m : NotificationManager,
      managers w !! this = Some m
      ∧ Forall (live (objects w)) (subscribers m !!! type).
Proof.
  split.
  - intros [[[] w'] Hrun].
    apply notifySubscribers_inv in Hrun as (m & Hm & Hlive & _). eauto.
  - intros (m & Hm & Hlive).
    rewrite (notifySubscribers_run _ _ _ _ _ Hm Hlive). by eexists.
Qed.

(** X3. On a live manager, [sendNotification] has defined behaviour
    exactly when the channel name is not one of the three (then no
    subscriber is touched), or every pointer in the channel's vector points
    to a live subscriber. *)
Theorem sendNotification_defined_iff (this : N) (type message : string)
  (m : NotificationManager) (w : World) :
  managers w !! this = Some m →
  is_Some (sendNotification this type message w)
  ↔ type ∉ ["email"; "sms"; "push"]
    ∨ Forall (live (objects w)) (subscribers m !!! type).
Proof.
  intros Hm. split.
  - intros [[[] w'] Hrun].
    apply sendNotification_inv in Hrun
      as [[Hn _]|(n & m' & _ & Hm' & Hlive & _)].
    + left. by apply variant_of_None.
    + right. by simplify_eq.
  - intros Hok. destruct (variant_of type) as [n|] eqn:Hn.
    + destruct Hok as [Hinvalid|Hlive].
      * apply variant_of_None in Hinvalid. congruence.
      * rewrite (sendNotification_run _ _ _ _ _ _ Hn Hm Hlive). by eexists.
    + rewrite (sendNotification_invalid_run _ _ _ _ Hn). by eexists.
Qed.

(** The driver's manager with Alice alive and Bob destroyed: a send on
    "email" is defined, a send on "sms" is not, a send on "fax" is. *)
Lemma sendNotification_defined_iff_witness :
  is_Some (sendNotification 1%N "email" "hello"
             (mkWorld EmptyString [] {[ 1%N := User "Alice" ]}
                (managers demo_world) 1%N))
  ∧ ¬ is_Some (sendNotification 1%N "sms" "hello"
                 (mkWorld EmptyString [] {[ 1%N := User "Alice" ]}
                    (managers demo_world) 1%N))
  ∧ is_Some (sendNotification 1%N "fax" "hello"
               (mkWorld EmptyString [] {[ 1%N := User "Alice" ]}
                  (managers demo_world) 1%N)).
Proof.
  pose proof (λ type,
    sendNotification_defined_iff 1%N type "hello"
      (mkManager {[ "email" := [1%N]; "sms" := [2%N];
                    "push" := [1%N; 2%N] ]})
      (mkWorld EmptyString [] {[ 1%N := User "Alice" ]}
         (managers demo_world) 1%N) eq_refl) as Hiff.
  split; [|split].
  - apply (Hiff "email"). right. compute_done.
  - intros Hdefined. apply (Hiff "sms") in Hdefined as [Hinvalid|Hlive].
    + apply Hinvalid. compute_done.
    + revert Hlive. compute_done.
  - apply (Hiff "fax"). left. compute_done.
Defined.

(** X4. The manager does not own its subscribers and nothing unsubscribes
    them: once a subscribed user is destroyed, the registry still holds its
    address, and a fan-out on that channel, or a send on it when the channel
    has a notification variant, is undefined. *)
Theorem destroyed_subscriber_dangles (this : N) (type message : string)
  (p : N) (m : NotificationManager) (w : World) :
  managers w !! this = Some m →
  p ∈ subscribers m !!! type →
  ∃ w1 : World,
    delete_User p w = Some (tt, w1)
    ∧ managers w1 = managers w
    ∧ notifySubscribers this type message w1 = None
    ∧ (type ∈ ["email"; "sms"; "push"] →
       sendNotification this type message w1 = None).
Proof.
  intros Hm Hp. eexists. split; [reflexivity|]. split; [reflexivity|].
  assert (¬ Forall (live (delete p (objects w))) (subscribers m !!! type))
    as Hdead.
  { intros Hlive. rewrite Forall_forall in Hlive.
    destruct (Hlive p Hp) as [s Hs]. by rewrite lookup_delete_eq in Hs. }
  split.
  - by apply (notifySubscribers_dangling _ _ _ m).
  - intros Hvalid. destruct (sendNotification _ _ _ _) as [[[] w2]|] eqn:Hrun;
      [|done].
    apply sendNotification_inv in Hrun
      as [[Hn _]|(n & m' & _ & Hm' & Hlive & _)].
    + by apply variant_of_None in Hn.
    + cbn in Hm', Hlive. by simplify_eq.
Qed.

(** Bob is destroyed in the driver's world; "sms" is his channel. *)
Lemma destroyed_subscriber_dangles_witness :
  ∃ w1 : World,
    delete_User 2%N demo_world = Some (tt, w1)
    ∧ managers w1 = managers demo_world
    ∧ notifySubscribers 1%N "sms" "hello" w1 = None
    ∧ ("sms" ∈ ["email"; "sms"; "push"] →
       sendNotification 1%N "sms" "hello" w1 = None).
Proof.
  refine (destroyed_subscriber_dangles 1%N "sms" "hello" 2%N
            (mkManager {[ "email" := [1%N]; "sms" := [2%N];
                          "push" := [1%N; 2%N] ]}) demo_world _ _).
  - vm_compute. reflexivity.
  - compute_done.
Defined.

(** X5. [subscribe] never looks at the subscriber pointer or at the channel
    name: on a live manager it returns for every pointer, the null pointer
    included, and stores it.  With a pointer to no live subscriber the
    fault only shows later, when a fan-out on that channel is undefined. *)
Theorem subscribe_dead_pointer (this : N) (type message : string) (p : N)
  (m : NotificationManager) (w : World) :
  managers w !! this = Some m →
  objects w !! p = None →
  ∃ (m1 : NotificationManager) (w1 : World),
    subscribe this type p w = Some (tt, w1)
    ∧ managers w1 !! this = Some m1
    ∧ subscribers m1 !!! type = subscribers m !!! type ++ [p]
    ∧ notifySubscribers this type message w1 = None.
Proof.
  intros Hm Hp.
  exists (mkManager (subscribed type p (subscribers m))). eexists.
  split; [by apply subscribe_run|]. split; [apply lookup_insert_eq|].
  assert (subscribed type p (subscribers m) !!! type
          = subscribers m !!! type ++ [p]) as Hsubs.
  { by rewrite lookup_total_subscribed, decide_True. }
  split; [done|].
  apply (notifySubscribers_dangling _ _ _
           (mkManager (subscribed type p (subscribers m))));
    [apply lookup_insert_eq|].
  cbn. rewrite Hsubs, Forall_app, Forall_singleton.
  intros [_ [s Hs]]. congruence.
Qed.

(** The null pointer is subscribed to "email" in the driver's world. *)
Lemma subscribe_dead_pointer_witness :
  ∃ (m1 : NotificationManager) (w1 : World),
    subscribe 1%N "email" nullptr demo_world = Some (tt, w1)
    ∧ managers w1 !! 1%N = Some m1
    ∧ subscribers m1 !!! "email" = [1%N] ++ [nullptr]
    ∧ notifySubscribers 1%N "email" "hello" w1 = None.
Proof.
  refine (subscribe_dead_pointer 1%N "email" "hello" nullptr
            (mkManager {[ "email" := [1%N]; "sms" := [2%N];
                          "push" := [1%N; 2%N] ]}) demo_world _ _);
    vm_compute; reflexivity.
Defined.

(** * Beyond the driver: how calls compose *)

Lemma sendNotification_dangling (this : N) (type message : string)
  (n : Notification) (m : NotificationManager) (w : World) :
  variant_of type = Some n →
  managers w !! this = Some m →
  ¬ Forall (live (objects w)) (subscribers m !!! type) →
  sendNotification this type message w = None.
Proof.
  intros Hn Hm Hdead. unfold sendNotification.
  run (createNotification_run _ _). rewrite Hn.
  run (invoke_send_run _ _ _).
  by apply (notifySubscribers_dangling _ _ _ m).
Qed.

(** X6. Channels are independent: after a subscription on one channel, a
    fan-out or a send on any other channel is defined exactly when it was
    before, and then writes the same text and makes the same calls. *)
Theorem subscribe_other_channel (this : N) (k k' message : string) (p : N)
  (m : NotificationManager) (w : World) :
  k ≠ k' →
  managers w !! this = Some m →
  ∃ w1 : World,
    subscribe this k p w = Some (tt, w1)
    ∧ observed (notifySubscribers this k' message w1)
      = observed (notifySubscribers this k' message w)
    ∧ observed (sendNotification this k' message w1)
      = observed (sendNotification this k' message w).
Proof.
  intros Hne Hm. eexists. split; [by apply subscribe_run|].
  set (m1 := mkManager (subscribed k p (subscribers m))).
  set (w1 := with_subscribers this (subscribed k p (subscribers m)) w).
  assert (managers w1 !! this = Some m1) as Hm1 by apply lookup_insert_eq.
  assert (subscribers m1 !!! k' = subscribers m !!! k') as Hsubs.
  { cbn. by rewrite lookup_total_subscribed, decide_False. }
  destruct (decide (Forall (live (objects w)) (subscribers m !!! k')))
    as [Hlive|Hdead].
  - assert (Forall (live (objects w1)) (subscribers m1 !!! k')) as Hlive1.
    { by rewrite Hsubs. }
    split.
    + rewrite (notifySubscribers_run _ _ _ _ _ Hm1 Hlive1).
      rewrite (notifySubscribers_run _ _ _ _ _ Hm Hlive).
      by rewrite Hsubs.
    + destruct (variant_of k') as [n|] eqn:Hn.
      * rewrite (sendNotification_run _ _ _ _ _ _ Hn Hm1 Hlive1).
        rewrite (sendNotification_run _ _ _ _ _ _ Hn Hm Hlive).
        by rewrite Hsubs.
      * by rewrite !(sendNotification_invalid_run _ _ _ _ Hn).
  - assert (¬ Forall (live (objects w1)) (subscribers m1 !!! k')) as Hdead1.
    { by rewrite Hsubs. }
    split.
    + rewrite (notifySubscribers_dangling _ _ _ _ _ Hm1 Hdead1).
      by rewrite (notifySubscribers_dangling _ _ _ _ _ Hm Hdead).
    + destruct (variant_of k') as [n|] eqn:Hn.
      * rewrite (sendNotification_dangling _ _ _ _ _ _ Hn Hm1 Hdead1).
        by rewrite (sendNotification_dangling _ _ _ _ _ _ Hn Hm Hdead).
      * by rewrite !(sendNotification_invalid_run _ _ _ _ Hn).
Qed.

(** Alice subscribes to "sms" in the driver's world; "email" is observed. *)
Lemma subscribe_other_channel_witness :
  ∃ w1 : World,
    subscribe 1%N "sms" 1%N demo_world = Some (tt, w1)
    ∧ observed (notifySubscribers 1%N "email" "hello" w1)
      = observed (notifySubscribers 1%N "email" "hello" demo_world)
    ∧ observed (sendNotification 1%N "email" "hello" w1)
      = observed (sendNotification 1%N "email" "hello" demo_world).
Proof.
  refine (subscribe_other_channel 1%N "sms" "email" "hello" 1%N
            (mkManager {[ "email" := [1%N]; "sms" := [2%N];
                          "push" := [1%N; 2%N] ]}) demo_world _ _).
  - compute_done.
  - vm_compute. reflexivity.
Defined.

Lemma subscribed_commute (k1 k2 : string) (p1 p2 : N)
  (s : gmap string (list N)) :
  k1 ≠ k2 →
  subscribed k2 p2 (subscribed k1 p1 s)
  = subscribed k1 p1 (subscribed k2 p2 s).
Proof.
  intros Hne. unfold subscribed.
  rewrite !lookup_insert_ne by done. by apply insert_insert_ne.
Qed.

(** X7. Subscriptions on two different channels can be made in either
    order: both orders are defined together and leave the same world. *)
Theorem subscribe_commute (this : N) (k1 k2 : string) (p1 p2 : N)
  (w : World) :
  k1 ≠ k2 →
  (subscribe this k1 p1;; subscribe this k2 p2) w
  = (subscribe this k2 p2;; subscribe this k1 p1) w.
Proof.
  intros Hne. destruct (managers w !! this) as [m|] eqn:Hm.
  - run (subscribe_run _ _ _ _ _ Hm). run (subscribe_run _ _ _ _ _ Hm).
    rewrite (subscribe_run _ k2 _ (mkManager (subscribed k1 p1 (subscribers m))))
      by apply lookup_insert_eq.
    rewrite (subscribe_run _ k1 _ (mkManager (subscribed k2 p2 (subscribers m))))
      by apply lookup_insert_eq.
    cbn [subscribers]. rewrite !with_subscribers_twice.
    by rewrite subscribed_commute.
  - unfold mbind, M_bind. by rewrite !(subscribe_dangling _ _ _ _ Hm).
Qed.

(** Bob on "email" and Alice on "sms", in the driver's world. *)
Lemma subscribe_commute_witness :
  (subscribe 1%N "email" 2%N;; subscribe 1%N "sms" 1%N) demo_world
  = (subscribe 1%N "sms" 1%N;; subscribe 1%N "email" 2%N) demo_world
  ∧ is_Some ((subscribe 1%N "email" 2%N;; subscribe 1%N "sms" 1%N)
               demo_world).
Proof.
  split.
  - apply (subscribe_commute 1%N "email" "sms" 2%N 1%N demo_world).
    compute_done.
  - vm_compute. by eexists.
Defined.

Lemma dom_registry_after (regs : list (string * N))
  (s : gmap string (list N)) :
  dom (registry_after regs s) = dom s ∪ list_to_set regs.*1.
Proof.
  revert s. induction regs as [|[k p] regs IH]; intros s.
  - cbn. by rewrite union_empty_r_L.
  - change (registry_after ((k, p) :: regs) s)
      with (registry_after regs (subscribed k p s)).
    rewrite IH. unfold subscribed. rewrite dom_insert_L. cbn.
    by rewrite (comm_L (∪) {[k]} (dom s)), <- (assoc_L (∪)).
Qed.

(** X8. After any sequence of subscriptions on a live manager, the keys of
    its registry are the keys it had together with every channel name that
    was subscribed to, recognised by the factory or not, and the vector of
    each channel is its old vector followed by the subscribers of that
    channel in the order of their subscriptions, duplicates included. *)
Theorem subscriptions_registry (this : N) (regs : list (string * N))
  (m : NotificationManager) (w : World) :
  managers w !! this = Some m →
  ∃ (m1 : NotificationManager) (w1 : World),
    subscribe_all this regs w = Some (tt, w1)
    ∧ managers w1 !! this = Some m1
    ∧ dom (subscribers m1) = dom (subscribers m) ∪ list_to_set regs.*1
    ∧ ∀ type : string,
        subscribers m1 !!! type
        = subscribers m !!! type ++ registered regs type.
Proof.
  intros Hm. exists (mkManager (registry_after regs (subscribers m))).
  eexists. split; [by apply subscribe_all_run|].
  split; [apply lookup_insert_eq|]. split.
  - apply dom_registry_after.
  - intros type. apply registry_after_lookup_total.
Qed.

(** Three subscriptions on the manager [getInstance] has just created. *)
Lemma subscriptions_registry_witness :
  ∃ (m1 : NotificationManager) (w1 : World),
    subscribe_all 1%N [("fax", 7%N); ("email", 8%N); ("fax", 7%N)]
      (with_subscribers 1%N ∅ initial_world) = Some (tt, w1)
    ∧ managers w1 !! 1%N = Some m1
    ∧ dom (subscribers m1) = {[ "fax"; "email" ]}
    ∧ subscribers m1 !!! "fax" = [7%N; 7%N].
Proof.
  destruct (subscriptions_registry 1%N
              [("fax", 7%N); ("email", 8%N); ("fax", 7%N)]
              (mkManager ∅) (with_subscribers 1%N ∅ initial_world))
    as (m1 & w1 & Hrun & Hm1 & Hdom & Hsubs).
  - vm_compute. reflexivity.
  - exists m1, w1. split; [exact Hrun|]. split; [exact Hm1|]. split.
    + rewrite Hdom. compute_done.
    + rewrite Hsubs. vm_compute. reflexivity.
Defined.

(** X9. In any world whatever, [getInstance] returns a non-null pointer
    and leaves the static pointer equal to it, so that calling it again
    returns the same pointer and changes nothing.  It writes nothing, calls
    nothing, touches no subscriber and keeps every manager that existed:
    when the static pointer was null the new, empty manager sits at an
    address that held none, and otherwise the world is unchanged. *)
Theorem getInstance_any_world (w : World) :
  ∃ (p : N) (w1 : World),
    getInstance w = Some (p, w1)
    ∧ p ≠ nullptr
    ∧ instance w1 = p
    ∧ getInstance w1 = Some (p, w1)
    ∧ cout w1 = cout w ∧ calls w1 = calls w ∧ objects w1 = objects w
    ∧ (∀ (q : N) (m : NotificationManager),
         managers w !! q = Some m → managers w1 !! q = Some m)
    ∧ (instance w ≠ nullptr → p = instance w ∧ w1 = w)
    ∧ (instance w = nullptr →
       managers w !! p = None
       ∧ managers w1 = <[p := mkManager ∅]> (managers w)).
Proof.
  destruct (decide (instance w = nullptr)) as [Hnull|Hset].
  - set (p := fresh ({[nullptr]} ∪ dom (managers w))).
    assert (managers w !! p = None) as Hfree.
    { apply not_elem_of_dom. intros Hin.
      apply (is_fresh ({[nullptr]} ∪ dom (managers w))).
      apply elem_of_union. by right. }
    eexists p, _. split; [by apply getInstance_created|].
    split; [apply fresh_not_nullptr|]. split; [done|].
    split; [apply (getInstance_existing (mkWorld _ _ _ _ p));
            apply fresh_not_nullptr|].
    do 3 (split; [done|]). split; [|split; [done|done]].
    intros q m Hq. cbn. rewrite lookup_insert_ne; [done|].
    intros Heq. rewrite <- Heq in Hq. unfold p in Hfree. congruence.
  - exists (instance w), w. split; [by apply getInstance_existing|].
    split; [done|]. split; [done|].
    split; [by apply getInstance_existing|].
    do 3 (split; [done|]). split; [done|]. split; [done|]. done.
Qed.

(** X11. A send through the manager that [getInstance] has just created
    reaches nobody: on one of the three channels it writes the channel's
    line alone and makes the one [send] call; on any other name it writes
    the diagnostic line alone and makes no call. *)
Theorem first_send_reaches_nobody (type message : string) (w : World) :
  instance w = nullptr →
  ∃ (this : N) (w1 w2 : World),
    getInstance w = Some (this, w1)
    ∧ sendNotification this type message w1 = Some (tt, w2)
    ∧ (((type ∉ ["email"; "sms"; "push"])
        ∧ cout w2
          = cout w +:+ "Invalid notification type: " +:+ type +:+ endl
        ∧ calls w2 = calls w)
       ∨ (∃ n : Notification,
            createNotification type w1 = Some (Some n, w1)
            ∧ cout w2 = cout w +:+ send_tag n +:+ message +:+ endl
            ∧ calls w2 = calls w ++ [CallSend n message])).
Proof.
  intros Hnull.
  set (this := fresh ({[nullptr]} ∪ dom (managers w))).
  destruct (variant_of type) as [n|] eqn:Hn; eexists this, _, _;
    (split; [by apply getInstance_created|]).
  - split.
    + apply (sendNotification_run _ _ _ n (mkManager ∅)); [done|..].
      * apply lookup_insert_eq.
      * cbn. rewrite lookup_total_empty. constructor.
    + right. exists n. split; [by rewrite createNotification_run, Hn|].
      cbn. rewrite lookup_total_empty. cbn. by rewrite append_nil_r.
  - split; [by apply sendNotification_invalid_run|].
    left. split; [by apply variant_of_None|]. cbn. by rewrite app_nil_r.
Qed.

(** Channel "sms" at process start. *)
Lemma first_send_reaches_nobody_witness :
  ∃ (this : N) (w1 w2 : World),
    getInstance initial_world = Some (this, w1)
    ∧ sendNotification this "sms" "hello" w1 = Some (tt, w2)
    ∧ cout w2 = lines ["Sending SMS: hello"]
    ∧ calls w2 = [CallSend SMSNotification "hello"].
Proof.
  destruct (first_send_reaches_nobody "sms" "hello" initial_world)
    as (this & w1 & w2 & Hget & Hrun & Hout).
  - reflexivity.
  - exists this, w1, w2. split; [exact Hget|]. split; [exact Hrun|].
    destruct Hout as [[Hinvalid _]|(n & Hn & Hcout & Hcalls)].
    + exfalso. apply Hinvalid. compute_done.
    + rewrite createNotification_run in Hn.
      assert (n = SMSNotification) as -> by (vm_compute in Hn; congruence).
      split; [exact Hcout|exact Hcalls].
Defined.

(** X12. A send consumes nothing: after a send that returned, any send, be
    it the same one again, is defined exactly when it was before the first
    one, and then appends the same text and the same calls. *)
Theorem sends_do_not_interfere (this this' : N)
  (type type' message message' : string) (w w1 : World) :
  sendNotification this type message w = Some (tt, w1) →
  (sendNotification this' type' message' w = None →
   sendNotification this' type' message' w1 = None)
  ∧ (∀ w2 : World,
       sendNotification this' type' message' w = Some (tt, w2) →
       ∃ (out : string) (cs : list Call),
         w2 = emit out cs w
         ∧ sendNotification this' type' message' w1
           = Some (tt, emit out cs w1)).
Proof.
  intros Hfirst.
  apply sendNotification_frame in Hfirst as (out1 & cs1 & ->). split.
  - intros Hnone.
    destruct (sendNotification _ _ _ (emit _ _ _)) as [[[] w2]|] eqn:Hrun;
      [|done].
    apply sendNotification_inv in Hrun
      as [[Hn _]|(n & m & Hn & Hm & Hlive & _)].
    + by rewrite (sendNotification_invalid_run _ _ _ _ Hn) in Hnone.
    + by rewrite (sendNotification_run _ _ _ _ _ w Hn Hm Hlive) in Hnone.
  - intros w2 Hrun.
    apply sendNotification_inv in Hrun
      as [[Hn ->]|(n & m & Hn & Hm & Hlive & ->)].
    + eexists _, _. split; [done|]. by apply sendNotification_invalid_run.
    + eexists _, _. split; [done|].
      exact (sendNotification_run _ _ _ n m (emit out1 cs1 w) Hn Hm Hlive).
Qed.

(** The driver's second send after its first, in the driver's world. *)
Lemma sends_do_not_interfere_witness :
  ∃ w1 w2 : World,
    sendNotification 1%N "email" "Your order has been placed." demo_world
    = Some (tt, w1)
    ∧ sendNotification 1%N "sms" "Your order is on the way." demo_world
      = Some (tt, w2)
    ∧ ∃ (out : string) (cs : list Call),
        w2 = emit out cs demo_world
        ∧ sendNotification 1%N "sms" "Your order is on the way." w1
          = Some (tt, emit out cs w1).
Proof.
  eexists _, _. split; [vm_compute; reflexivity|].
  split; [vm_compute; reflexivity|].
  refine (proj2 (sends_do_not_interfere 1%N 1%N "email" "sms"
                   "Your order has been placed." "Your order is on the way."
                   demo_world _ _) _ _);
    vm_compute; reflexivity.
Defined.

(** * Beyond the claims: the whole program *)

(** A freshly chosen address holds nothing. *)
Lemma fresh_free {A : Type} (s : gmap N A) :
  s !! fresh ({[nullptr]} ∪ dom s) = None.
Proof.
  apply not_elem_of_dom. intros Hin.
  apply (is_fresh ({[nullptr]} ∪ dom s)). apply elem_of_union. by right.
Qed.

(** X1. Started in any world whose static pointer is null, [main]
    returns 0.  It writes the seven lines of its three notifications after
    whatever [std::cout] held, makes the matching seven virtual calls, and
    leaves one new manager behind the static pointer.  Its two users get
    distinct addresses and are destroyed before it returns, so the registry
    it leaves holds addresses of no live subscriber. *)
Theorem main_from_start (w : World) :
  instance w = nullptr →
  ∃ (manager alice bob : N) (w' : World),
    main w = Some (0%Z, w')
    ∧ cout w'
      = cout w
        +:+ lines ["Sending Email: Your order has been placed.";
                   "Alice received notification: Your order has been placed.";
                   "Sending SMS: Your order is on the way.";
                   "Bob received notification: Your order is on the way.";
                   "Sending Push Notification: Your order has been delivered.";
                   "Alice received notification: Your order has been delivered.";
                   "Bob received notification: Your order has been delivered."]
    ∧ calls w'
      = calls w
        ++ [CallSend EmailNotification "Your order has been placed.";
            CallUpdate alice "Your order has been placed.";
            CallSend SMSNotification "Your order is on the way.";
            CallUpdate bob "Your order is on the way.";
            CallSend PushNotification "Your order has been delivered.";
            CallUpdate alice "Your order has been delivered.";
            CallUpdate bob "Your order has been delivered."]
    ∧ alice ≠ bob
    ∧ manager ≠ nullptr
    ∧ instance w' = manager
    ∧ managers w'
      = <[manager := mkManager {[ "email" := [alice]; "sms" := [bob];
                                  "push" := [alice; bob] ]}]> (managers w)
    ∧ objects w' = objects w
    ∧ objects w' !! alice = None
    ∧ objects w' !! bob = None.
Proof.
  intros Hnull.
  set (pm := fresh ({[nullptr]} ∪ dom (managers w))).
  set (pa := fresh ({[nullptr]} ∪ dom (objects w))).
  set (objs1 := <[pa := User "Alice"]> (objects w)).
  set (pb := fresh ({[nullptr]} ∪ dom objs1)).
  set (objs2 := <[pb := User "Bob"]> objs1).
  assert (objects w !! pa = None) as Hpa by apply fresh_free.
  assert (objs1 !! pb = None) as Hpb by apply fresh_free.
  assert (pa ≠ pb) as Hab.
  { intros Heq. rewrite <- Heq in Hpb. unfold objs1 in Hpb.
    by rewrite lookup_insert_eq in Hpb. }
  assert (objs2 !! pa = Some (User "Alice")) as Halice.
  { unfold objs2. rewrite lookup_insert_ne by done. apply lookup_insert_eq. }
  assert (objs2 !! pb = Some (User "Bob")) as Hbob.
  { apply lookup_insert_eq. }
  set (reg := {[ "email" := [pa]; "sms" := [pb]; "push" := [pa; pb] ]}
              : gmap string (list N)).
  set (w0 := {| cout := cout w; calls := calls w; objects := objs2;
                managers := <[pm := mkManager ∅]> (managers w);
                instance := pm |}).
  assert (main_setup w = Some ((pm, pa, pb), with_subscribers pm reg w0))
    as Hsetup.
  { unfold main_setup. run (getInstance_created _ Hnull).
    run (new_User_run _ _). run (new_User_run _ _).
    fold pm pa. cbn [objects]. fold objs1 pb objs2. fold w0.
    assert (managers w0 !! pm = Some (mkManager ∅)) as Hm0
      by apply lookup_insert_eq.
    run (subscribe_run _ _ _ _ _ Hm0).
    rewrite (bind_run _ _ _ _ _ (subscribe_run _ _ _ (mkManager _) _
                                   (lookup_insert_eq _ _ _))).
    rewrite with_subscribers_twice.
    rewrite (bind_run _ _ _ _ _ (subscribe_run _ _ _ (mkManager _) _
                                   (lookup_insert_eq _ _ _))).
    rewrite with_subscribers_twice.
    rewrite (bind_run _ _ _ _ _ (subscribe_run _ _ _ (mkManager _) _
                                   (lookup_insert_eq _ _ _))).
    rewrite with_subscribers_twice. reflexivity. }
  set (wS := with_subscribers pm reg w0) in *.
  assert (managers wS !! pm = Some (mkManager reg)) as HmS
    by apply lookup_insert_eq.
  assert (live (objects wS) pa) as Hla by (by eexists).
  assert (live (objects wS) pb) as Hlb by (by eexists).
  exists pm, pa, pb. eexists. split.
  { unfold main. run Hsetup. cbv beta iota.
    run (sendNotification_run pm "email" _ EmailNotification (mkManager reg)
           wS eq_refl HmS (Forall_cons_2 _ _ _ Hla (Forall_nil_2 _))).
    run (sendNotification_run pm "sms" _ SMSNotification (mkManager reg)
           (emit _ _ wS) eq_refl HmS
           (Forall_cons_2 _ _ _ Hlb (Forall_nil_2 _))).
    run (sendNotification_run pm "push" _ PushNotification (mkManager reg)
           (emit _ _ (emit _ _ wS)) eq_refl HmS
           (Forall_cons_2 _ _ _ Hla
              (Forall_cons_2 _ _ _ Hlb (Forall_nil_2 _)))).
    rewrite !emit_emit. reflexivity. }
  assert (name_at objs2 pa = "Alice") as Hna
    by (unfold name_at; by rewrite Halice).
  assert (name_at objs2 pb = "Bob") as Hnb
    by (unfold name_at; by rewrite Hbob).
  cbn [cout calls objects managers instance emit with_subscribers wS w0
       subscribers].
  change (reg !!! "email") with [pa].
  change (reg !!! "sms") with [pb].
  change (reg !!! "push") with [pa; pb].
  cbn [received_lines update_calls fmap list_fmap]. rewrite Hna, Hnb.
  assert (delete pa (delete pb objs2) = objects w) as Hobjs.
  { unfold objs2. rewrite (delete_insert_id _ _ _ Hpb).
    unfold objs1. by rewrite (delete_insert_id _ _ _ Hpa). }
  split; [reflexivity|]. split; [reflexivity|]. split; [exact Hab|].
  split; [apply fresh_not_nullptr|]. split; [reflexivity|].
  split; [apply insert_insert_eq|]. split; [exact Hobjs|].
  rewrite Hobjs. split; [exact Hpa|].
  unfold objs1 in Hpb. by rewrite lookup_insert_ne in Hpb.
Qed.

(** At process start. *)
Lemma main_from_start_witness :
  ∃ w' : World,
    main initial_world = Some (0%Z, w')
    ∧ objects w' = ∅
    ∧ managers w' !! 1%N
      = Some (mkManager {[ "email" := [1%N]; "sms" := [2%N];
                           "push" := [1%N; 2%N] ]}).
Proof.
  destruct (main_from_start initial_world)
    as (manager & alice & bob & w' & Hrun & _ & _ & _ & _ & _ & _ & Hobjs
        & _).
  - reflexivity.
  - exists w'. split; [exact Hrun|]. split; [exact Hobjs|].
    vm_compute in Hrun. injection Hrun as <-. vm_compute. reflexivity.
Defined.

(** X10. In every world reached from process start, the pointer
    [getInstance] returns points to a live manager: a subscription through
    it is defined, and a later [getInstance] returns the same pointer, behind
    which the new subscriber is the last of its channel. *)
Theorem handle_is_usable (type : string) (p : N) (w : World) :
  rtc step initial_world w →
  ∃ (this : N) (w1 w2 : World) (m2 : NotificationManager),
    getInstance w = Some (this, w1)
    ∧ subscribe this type p w1 = Some (tt, w2)
    ∧ getInstance w2 = Some (this, w2)
    ∧ managers w2 !! this = Some m2
    ∧ last (subscribers m2 !!! type) = Some p.
Proof.
  intros Hreach.
  destruct (steps_singleton_inv _ _ Hreach initial_singleton_inv)
    as [Hinv _].
  assert (∃ w1, getInstance w = Some (instance w1, w1)) as [w1 Hget].
  { destruct (decide (instance w = nullptr)) as [Hnull|Hset].
    - eexists (mkWorld _ _ _ _ _). by apply getInstance_created.
    - exists w. by apply getInstance_existing. }
  destruct (step_singleton_inv _ _ (step_getInstance _ _ _ Hget) Hinv)
    as [[[Hnull _]|[Hset Hdom]] _].
  { destruct (decide (instance w = nullptr)) as [Hnull0|Hset0].
    - rewrite (getInstance_created _ Hnull0) in Hget. simplify_eq.
      cbn in Hnull. by apply fresh_not_nullptr in Hnull.
    - rewrite (getInstance_existing _ Hset0) in Hget. by simplify_eq. }
  assert (is_Some (managers w1 !! instance w1)) as [m Hm].
  { apply elem_of_dom. rewrite Hdom. by apply elem_of_singleton. }
  exists (instance w1), w1. eexists.
  exists (mkManager (subscribed type p (subscribers m))).
  split; [exact Hget|]. split; [by apply subscribe_run|].
  split; [by apply (getInstance_existing (with_subscribers _ _ w1))|].
  split; [apply lookup_insert_eq|].
  cbn. rewrite lookup_total_subscribed, decide_True by done.
  apply last_snoc.
Qed.

(** At process start, with a subscriber at address 5 on "email". *)
Lemma handle_is_usable_witness :
  ∃ (this : N) (w1 w2 : World) (m2 : NotificationManager),
    getInstance initial_world = Some (this, w1)
    ∧ subscribe this "email" 5%N w1 = Some (tt, w2)
    ∧ getInstance w2 = Some (this, w2)
    ∧ managers w2 !! this = Some m2
    ∧ last (subscribers m2 !!! "email") = Some 5%N.
Proof.
  apply (handle_is_usable "email" 5%N initial_world). apply rtc_refl.
Defined.
